(** * ExpenseFlow: the automated backup scheduler of [server.js]

    A shallow embedding of [initializeBackupScheduling] and of the four
    cron callbacks it registers, together with the process-level error
    handlers installed at the top of [server.js].

    The callbacks are asynchronous JavaScript functions that talk to two
    collaborators, [backupService] and [cron] (node-cron).  They are
    embedded as finite trees of effects ([Task]); the meaning of the
    effects is given afterwards by an interpreter over an explicit
    [World], once atomically ([exec]) and once with the [await] points
    exposed ([advance], [step]) so that overlapping runs can be
    observed. *)

From Stdlib Require Import String Ascii List ZArith Lia Bool Arith.
From Stdlib Require Import Permutation Sorting.Sorted.
From Stdlib Require Floats.
Import ListNotations.
Local Open Scope string_scope.
Local Open Scope list_scope.

Set Implicit Arguments.

(* ------------------------------------------------------------------ *)
(** ** JavaScript values that the backup code handles *)

(** A JavaScript [Error]; the scheduler only ever reads [error.message]. *)
Record Error := { message : string }.

(** What a call produces: a value, or a thrown error (for an awaited
    promise: fulfilment or rejection). *)
Inductive Outcome (A : Type) : Type :=
| Returned (a : A)
| Thrown (e : Error).
Arguments Thrown {A} e.

(** The object [createDatabaseBackup] resolves to, as the callbacks read
    it: [result.size] and [result.destination]. *)
Record BackupResult := { size : Z; destination : string }.

(** The object [applyRetentionPolicy] resolves to.  The cleanup callback
    reads [result.removed] only. *)
Record RetentionResult := { removed : nat; failures : nat }.

(** The object literal handed to [backupService.logBackup].  A key that
    the literal does not mention is [None]. *)
Record BackupInfo := {
  entry_type : string;
  entry_size : option Z;
  entry_status : string;
  entry_destination : option string;
  entry_error : option string
}.

(** Arguments of [console.log] / [console.error]. *)
Inductive JsVal : Type :=
| VStr (s : string)
| VNum (n : Z)
| VErr (e : Error)
| VPromise.

(** The options object of [cron.schedule]: [{ timezone: 'UTC' }]. *)
Record ScheduleOptions := { timezone : string }.

(* ------------------------------------------------------------------ *)
(** ** Callback bodies as trees of effects *)

(** One constructor per effect the backup code performs.  A continuation
    receives what the collaborator answered. *)
Inductive Task : Type :=
| Done
| Throw (error : Error)
| ConsoleLog (args : list JsVal) (next : Task)
| ConsoleError (args : list JsVal) (next : Task)
| AwaitCreateDatabaseBackup (next : Outcome BackupResult -> Task)
| LogBackup (entry : BackupInfo) (next : Outcome unit -> Task)
| AwaitApplyRetentionPolicy (next : Outcome RetentionResult -> Task)
| CronSchedule (expression : string) (callback : Task)
               (options : ScheduleOptions) (next : Outcome unit -> Task).

(** [try { body } catch (error) { handler }]: the first error thrown
    anywhere in [body] transfers control to [handler]; errors thrown by
    the handler itself are not caught. *)
Fixpoint try_catch (body : Task) (handler : Error -> Task) : Task :=
  match body with
  | Done => Done
  | Throw error => handler error
  | ConsoleLog args next => ConsoleLog args (try_catch next handler)
  | ConsoleError args next => ConsoleError args (try_catch next handler)
  | AwaitCreateDatabaseBackup next =>
      AwaitCreateDatabaseBackup (fun o => try_catch (next o) handler)
  | LogBackup entry next =>
      LogBackup entry (fun o => try_catch (next o) handler)
  | AwaitApplyRetentionPolicy next =>
      AwaitApplyRetentionPolicy (fun o => try_catch (next o) handler)
  | CronSchedule expression callback options next =>
      CronSchedule expression callback options
                   (fun o => try_catch (next o) handler)
  end.

(** Statements.  A call whose collaborator throws (or whose awaited
    promise rejects) throws at the call site. *)
Definition rethrow {A} (k : A -> Task) (o : Outcome A) : Task :=
  match o with
  | Returned a => k a
  | Thrown e => Throw e
  end.

Definition console_log (args : list JsVal) (k : Task) : Task :=
  ConsoleLog args k.
Definition console_error (args : list JsVal) (k : Task) : Task :=
  ConsoleError args k.
Definition await_createDatabaseBackup (k : BackupResult -> Task) : Task :=
  AwaitCreateDatabaseBackup (rethrow k).
Definition logBackup (entry : BackupInfo) (k : Task) : Task :=
  LogBackup entry (rethrow (fun _ => k)).
Definition await_applyRetentionPolicy (k : RetentionResult -> Task) : Task :=
  AwaitApplyRetentionPolicy (rethrow k).
Definition cron_schedule (expression : string) (callback : Task)
    (options : ScheduleOptions) (k : Task) : Task :=
  CronSchedule expression callback options (rethrow (fun _ => k)).

Declare Scope task_scope.
Delimit Scope task_scope with task.
Notation "c ;; k" := (c k%task)
  (at level 61, right associativity, only parsing) : task_scope.
Notation "x <- c ;; k" := (c (fun x => k%task))
  (at level 61, c at next level, right associativity, only parsing)
  : task_scope.
Local Open Scope task_scope.

(* ------------------------------------------------------------------ *)
(** ** The four callbacks of [initializeBackupScheduling] *)

Inductive Tier : Type := Daily | Weekly | Monthly.

(** [server.js:211-230], the callback of [cron.schedule('0 2 * * *', ...)]. *)
Definition dailyTask : Task :=
  try_catch
    (console_log [VStr "[BACKUP] Starting daily backup..."] ;;
     result <- await_createDatabaseBackup ;;
     console_log [VStr "[BACKUP] Daily backup completed successfully"] ;;
     logBackup {| entry_type := "daily";
                  entry_size := Some (size result);
                  entry_status := "success";
                  entry_destination := Some (destination result);
                  entry_error := None |} ;;
     Done)
    (fun error =>
     console_error [VStr "[BACKUP] Daily backup failed:"; VErr error] ;;
     logBackup {| entry_type := "daily";
                  entry_size := None;
                  entry_status := "failed";
                  entry_destination := None;
                  entry_error := Some (message error) |} ;;
     Done).

(** [server.js:233-252], the callback of [cron.schedule('0 3 * * 0', ...)]. *)
Definition weeklyTask : Task :=
  try_catch
    (console_log [VStr "[BACKUP] Starting weekly backup..."] ;;
     result <- await_createDatabaseBackup ;;
     console_log [VStr "[BACKUP] Weekly backup completed successfully"] ;;
     logBackup {| entry_type := "weekly";
                  entry_size := Some (size result);
                  entry_status := "success";
                  entry_destination := Some (destination result);
                  entry_error := None |} ;;
     Done)
    (fun error =>
     console_error [VStr "[BACKUP] Weekly backup failed:"; VErr error] ;;
     logBackup {| entry_type := "weekly";
                  entry_size := None;
                  entry_status := "failed";
                  entry_destination := None;
                  entry_error := Some (message error) |} ;;
     Done).

(** [server.js:255-274], the callback of [cron.schedule('0 4 1 * *', ...)]. *)
Definition monthlyTask : Task :=
  try_catch
    (console_log [VStr "[BACKUP] Starting monthly backup..."] ;;
     result <- await_createDatabaseBackup ;;
     console_log [VStr "[BACKUP] Monthly backup completed successfully"] ;;
     logBackup {| entry_type := "monthly";
                  entry_size := Some (size result);
                  entry_status := "success";
                  entry_destination := Some (destination result);
                  entry_error := None |} ;;
     Done)
    (fun error =>
     console_error [VStr "[BACKUP] Monthly backup failed:"; VErr error] ;;
     logBackup {| entry_type := "monthly";
                  entry_size := None;
                  entry_status := "failed";
                  entry_destination := None;
                  entry_error := Some (message error) |} ;;
     Done).

(** [server.js:277-285], the callback of [cron.schedule('0 5 * * *', ...)]. *)
Definition cleanupTask : Task :=
  try_catch
    (console_log [VStr "[BACKUP] Running retention policy cleanup..."] ;;
     result <- await_applyRetentionPolicy ;;
     console_log [VStr "[BACKUP] Retention policy applied. Removed:";
                  VNum (Z.of_nat (removed result))] ;;
     Done)
    (fun error =>
     console_error [VStr "[BACKUP] Retention policy failed:"; VErr error] ;;
     Done).

Definition UTC : ScheduleOptions := {| timezone := "UTC" |}.

(** [server.js:206-295].  The check mark that opens the first success
    line in the source is left out of the string. *)
Definition initializeBackupScheduling : Task :=
  try_catch
    (console_log [VStr "Initializing automated backup scheduling..."] ;;
     cron_schedule "0 2 * * *" dailyTask UTC ;;
     cron_schedule "0 3 * * 0" weeklyTask UTC ;;
     cron_schedule "0 4 1 * *" monthlyTask UTC ;;
     cron_schedule "0 5 * * *" cleanupTask UTC ;;
     console_log [VStr "Backup scheduling initialized successfully"] ;;
     console_log [VStr "  - Daily backups: 2:00 AM UTC"] ;;
     console_log [VStr "  - Weekly backups: Sundays 3:00 AM UTC"] ;;
     console_log [VStr "  - Monthly backups: 1st of month 4:00 AM UTC"] ;;
     console_log [VStr "  - Cleanup: Daily 5:00 AM UTC"] ;;
     Done)
    (fun error =>
     console_error [VStr "Failed to initialize backup scheduling:"; VErr error] ;;
     Done).

(** The callback that serves a tier, and the tier's name as the callbacks
    spell it in [type:]. *)
Definition tierTask (tier : Tier) : Task :=
  match tier with
  | Daily => dailyTask
  | Weekly => weeklyTask
  | Monthly => monthlyTask
  end.

Definition tierName (tier : Tier) : string :=
  match tier with
  | Daily => "daily"
  | Weekly => "weekly"
  | Monthly => "monthly"
  end.

(* ------------------------------------------------------------------ *)
(** ** Process-level handlers, [server.js:2-11] *)

(** [process.on('unhandledRejection', (reason, promise) => ...)]. *)
Definition onUnhandledRejection (reason : Error) : Task :=
  console_error [VStr "Unhandled Rejection at:"; VPromise;
                 VStr "reason:"; VErr reason] ;;
  Done.

(** [process.on('uncaughtException', (err) => ...)]. *)
Definition onUncaughtException (err : Error) : Task :=
  console_error [VStr "Uncaught Exception thrown:"; VErr err] ;;
  Done.

(* ------------------------------------------------------------------ *)
(** ** The world the callbacks act on *)

Inductive Stream : Type := Stdout | Stderr.

Record ConsoleLine := { stream : Stream; line : list JsVal }.

(** A record of the backup log: what [logBackup] was given, stamped. *)
Record BackupEntry := {
  info : BackupInfo;
  timestamp : Z;
  reclaimed : bool
}.

(** A task registered with node-cron. *)
Record Scheduled := {
  sched_expression : string;
  sched_callback : Task;
  sched_options : ScheduleOptions
}.

Record World := {
  backupLog : list BackupEntry;   (* the backup log, oldest entry first *)
  console : list ConsoleLine;     (* what the operators see, oldest first *)
  registry : list Scheduled;      (* node-cron's registered tasks *)
  floating : list Error;          (* rejected promises that nothing awaits *)
  clock : Z                       (* current time *)
}.

Definition with_backupLog (l : list BackupEntry) (w : World) : World :=
  {| backupLog := l; console := console w; registry := registry w;
     floating := floating w; clock := clock w |}.
Definition with_console (c : list ConsoleLine) (w : World) : World :=
  {| backupLog := backupLog w; console := c; registry := registry w;
     floating := floating w; clock := clock w |}.
Definition with_registry (r : list Scheduled) (w : World) : World :=
  {| backupLog := backupLog w; console := console w; registry := r;
     floating := floating w; clock := clock w |}.
Definition with_floating (f : list Error) (w : World) : World :=
  {| backupLog := backupLog w; console := console w; registry := registry w;
     floating := f; clock := clock w |}.

Definition print (s : Stream) (args : list JsVal) (w : World) : World :=
  with_console (console w ++ [{| stream := s; line := args |}]) w.

(** How a write to the log's storage can end: it succeeds, it throws
    synchronously, or it hands back a promise that rejects later. *)
Inductive LogWrite : Type :=
| WriteOk
| WriteThrows (e : Error)
| WriteRejects (e : Error).

(** The collaborators injected into the scheduler.  None of them is
    under the sources ([./services/backupService] and node-cron are
    [require]d), so their behaviour is a parameter: each answer may
    depend on the whole current world. *)
Record Services := {
  createDatabaseBackup : World -> Outcome BackupResult;
  storageWrite : BackupInfo -> World -> LogWrite;
  applyRetentionPolicy : World -> Outcome RetentionResult * list BackupEntry;
  validate : string -> Outcome unit
}.

(** Modelled from the spec: [backupService.logBackup], whose source is
    missing.  The spec's [append(entry)] is a durable write of one entry
    that fails on storage failure; a failed write stores nothing.  The
    callbacks do not [await] the call, so a failure that arrives as a
    rejected promise is left floating. *)
Definition append (svc : Services) (entry : BackupInfo) (w : World)
    : Outcome unit * World :=
  match storageWrite svc entry w with
  | WriteOk =>
      (Returned tt,
       with_backupLog (backupLog w ++ [{| info := entry;
                                          timestamp := clock w;
                                          reclaimed := false |}]) w)
  | WriteThrows e => (Thrown e, w)
  | WriteRejects e => (Returned tt, with_floating (floating w ++ [e]) w)
  end.

(** Modelled from the spec: node-cron's [cron.schedule], a dependency
    whose source is missing.  The spec's [schedule(spec, task)] registers
    a recurring task and fails when the expression is malformed. *)
Definition schedule (svc : Services) (expression : string) (callback : Task)
    (options : ScheduleOptions) (w : World) : Outcome unit * World :=
  match validate svc expression with
  | Returned _ =>
      (Returned tt,
       with_registry (registry w ++ [{| sched_expression := expression;
                                        sched_callback := callback;
                                        sched_options := options |}]) w)
  | Thrown e => (Thrown e, w)
  end.

(** Running a task to completion, every awaited promise settling at
    once.  The result is how the task's own promise settles. *)
Fixpoint exec (svc : Services) (t : Task) (w : World) : Outcome unit * World :=
  match t with
  | Done => (Returned tt, w)
  | Throw error => (Thrown error, w)
  | ConsoleLog args next => exec svc next (print Stdout args w)
  | ConsoleError args next => exec svc next (print Stderr args w)
  | AwaitCreateDatabaseBackup next =>
      exec svc (next (createDatabaseBackup svc w)) w
  | LogBackup entry next =>
      exec svc (next (fst (append svc entry w))) (snd (append svc entry w))
  | AwaitApplyRetentionPolicy next =>
      exec svc (next (fst (applyRetentionPolicy svc w)))
           (with_backupLog (snd (applyRetentionPolicy svc w)) w)
  | CronSchedule expression callback options next =>
      exec svc (next (fst (schedule svc expression callback options w)))
           (snd (schedule svc expression callback options w))
  end.

(* ------------------------------------------------------------------ *)
(** ** The same callbacks with their [await] points exposed *)

(** Where a callback stands after its synchronous code has run. *)
Inductive Paused : Type :=
| Settled (o : Outcome unit)
| AwaitingBackup (next : Outcome BackupResult -> Task)
| AwaitingRetention (next : Outcome RetentionResult -> Task).

(** Run the synchronous code of a task up to its next [await]. *)
Fixpoint advance (svc : Services) (t : Task) (w : World) : Paused * World :=
  match t with
  | Done => (Settled (Returned tt), w)
  | Throw error => (Settled (Thrown error), w)
  | ConsoleLog args next => advance svc next (print Stdout args w)
  | ConsoleError args next => advance svc next (print Stderr args w)
  | AwaitCreateDatabaseBackup next => (AwaitingBackup next, w)
  | LogBackup entry next =>
      advance svc (next (fst (append svc entry w))) (snd (append svc entry w))
  | AwaitApplyRetentionPolicy next => (AwaitingRetention next, w)
  | CronSchedule expression callback options next =>
      advance svc (next (fst (schedule svc expression callback options w)))
              (snd (schedule svc expression callback options w))
  end.

(** A callback invocation that has not finished: which registered task it
    belongs to and where it waits. *)
Record Run := { run_job : nat; run_paused : Paused }.

(** The Node.js process: the world, the callback invocations in flight
    (oldest first) and the errors with which callback promises rejected. *)
Record Node := {
  world : World;
  running : list Run;
  rejected : list Error
}.

(** What can happen next in the process. *)
Inductive Event : Type :=
| Tick (job : nat)
    (* node-cron fires the [job]-th registered task *)
| BackupSettles (n : nat) (o : Outcome BackupResult)
    (* the export awaited by the [n]-th invocation in flight settles *)
| RetentionSettles (n : nat) (o : Outcome RetentionResult)
                   (log : list BackupEntry)
    (* the sweep awaited by the [n]-th invocation in flight settles *).

Fixpoint remove_nth {A} (n : nat) (l : list A) : list A :=
  match n, l with
  | _, [] => []
  | O, _ :: l' => l'
  | S n', x :: l' => x :: remove_nth n' l'
  end.

(** Book an invocation that stopped at [p]. *)
Definition park (job : nat) (p : Paused) (w : World) (runs : list Run)
    (rej : list Error) : Node :=
  match p with
  | Settled (Returned _) => {| world := w; running := runs; rejected := rej |}
  | Settled (Thrown e) =>
      {| world := w; running := runs; rejected := rej ++ [e] |}
  | _ => {| world := w;
            running := runs ++ [{| run_job := job; run_paused := p |}];
            rejected := rej |}
  end.

(** The callbacks are registered with [{ timezone: 'UTC' }] and nothing
    else, and none of them consults any state before it starts: a tick
    invokes the callback. *)
Definition step (svc : Services) (ev : Event) (s : Node) : Node :=
  match ev with
  | Tick job =>
      match nth_error (registry (world s)) job with
      | Some sch =>
          park job (fst (advance svc (sched_callback sch) (world s)))
               (snd (advance svc (sched_callback sch) (world s)))
               (running s) (rejected s)
      | None => s
      end
  | BackupSettles n o =>
      match nth_error (running s) n with
      | Some {| run_job := job; run_paused := AwaitingBackup next |} =>
          park job (fst (advance svc (next o) (world s)))
               (snd (advance svc (next o) (world s)))
               (remove_nth n (running s)) (rejected s)
      | _ => s
      end
  | RetentionSettles n o log =>
      match nth_error (running s) n with
      | Some {| run_job := job; run_paused := AwaitingRetention next |} =>
          park job
               (fst (advance svc (next o) (with_backupLog log (world s))))
               (snd (advance svc (next o) (with_backupLog log (world s))))
               (remove_nth n (running s)) (rejected s)
      | _ => s
      end
  end.

Definition steps (svc : Services) (evs : list Event) (s : Node) : Node :=
  fold_left (fun s ev => step svc ev s) evs s.

(** Invocations of registered task [job] currently in flight. *)
Definition runningOf (job : nat) (s : Node) : nat :=
  length (filter (fun r => Nat.eqb (run_job r) job) (running s)).

(** Node delivers every rejected promise that nothing awaits to the
    [unhandledRejection] handler. *)
Definition deliverRejections (svc : Services) (w : World) : World :=
  fold_left (fun w e => snd (exec svc (onUnhandledRejection e) w))
            (floating w) (with_floating [] w).

(* ------------------------------------------------------------------ *)
(** ** Reference collaborators *)

Definition emptyWorld : World :=
  {| backupLog := []; console := []; registry := []; floating := [];
     clock := 0 |}.

(** Collaborators that all work: the export yields a 2048-byte dump,
    the log storage accepts every write, the sweep finds nothing to do
    and every cron expression is accepted. *)
Definition healthy : Services :=
  {| createDatabaseBackup := fun _ =>
       Returned {| size := 2048; destination := "backups/dump.gz" |};
     storageWrite := fun _ _ => WriteOk;
     applyRetentionPolicy := fun w =>
       (Returned {| removed := 0; failures := 0 |}, backupLog w);
     validate := fun _ => Returned tt |}.

(** The same, with an export that fails. *)
Definition diskFull : Services :=
  {| createDatabaseBackup := fun _ => Thrown {| message := "disk full" |};
     storageWrite := storageWrite healthy;
     applyRetentionPolicy := applyRetentionPolicy healthy;
     validate := validate healthy |}.

(** The process once [initializeBackupScheduling] has run. *)
Definition booted (svc : Services) : Node :=
  {| world := snd (exec svc initializeBackupScheduling emptyWorld);
     running := []; rejected := [] |}.

(** Log storage that refuses a record of a successful backup and accepts
    a record of a failed one. *)
Definition flaky : Services :=
  {| createDatabaseBackup := createDatabaseBackup healthy;
     storageWrite := fun entry _ =>
       if String.eqb (entry_status entry) "success"
       then WriteThrows {| message := "log storage unavailable" |}
       else WriteOk;
     applyRetentionPolicy := applyRetentionPolicy healthy;
     validate := validate healthy |}.

(** The lines and log records of a backup run, by tier. *)
Definition startLine (tier : Tier) : list JsVal :=
  match tier with
  | Daily => [VStr "[BACKUP] Starting daily backup..."]
  | Weekly => [VStr "[BACKUP] Starting weekly backup..."]
  | Monthly => [VStr "[BACKUP] Starting monthly backup..."]
  end.

Definition completedLine (tier : Tier) : list JsVal :=
  match tier with
  | Daily => [VStr "[BACKUP] Daily backup completed successfully"]
  | Weekly => [VStr "[BACKUP] Weekly backup completed successfully"]
  | Monthly => [VStr "[BACKUP] Monthly backup completed successfully"]
  end.

Definition failedLine (tier : Tier) (error : Error) : list JsVal :=
  match tier with
  | Daily => [VStr "[BACKUP] Daily backup failed:"; VErr error]
  | Weekly => [VStr "[BACKUP] Weekly backup failed:"; VErr error]
  | Monthly => [VStr "[BACKUP] Monthly backup failed:"; VErr error]
  end.

Definition successInfo (tier : Tier) (result : BackupResult) : BackupInfo :=
  {| entry_type := tierName tier;
     entry_size := Some (size result);
     entry_status := "success";
     entry_destination := Some (destination result);
     entry_error := None |}.

Definition failedInfo (tier : Tier) (error : Error) : BackupInfo :=
  {| entry_type := tierName tier;
     entry_size := None;
     entry_status := "failed";
     entry_destination := None;
     entry_error := Some (message error) |}.

Definition stamped (w : World) (entry : BackupInfo) : BackupEntry :=
  {| info := entry; timestamp := clock w; reclaimed := false |}.

(** The [catch] block of a backup callback, entered with [error] in
    world [w]. *)
Definition recover (svc : Services) (tier : Tier) (error : Error) (w : World)
    : Outcome unit * World :=
  append svc (failedInfo tier error) (print Stderr (failedLine tier error) w).

(** The four registrations of [initializeBackupScheduling], in order. *)
Definition fourSchedules : list Scheduled :=
  [ {| sched_expression := "0 2 * * *"; sched_callback := dailyTask;
       sched_options := UTC |};
    {| sched_expression := "0 3 * * 0"; sched_callback := weeklyTask;
       sched_options := UTC |};
    {| sched_expression := "0 4 1 * *"; sched_callback := monthlyTask;
       sched_options := UTC |};
    {| sched_expression := "0 5 * * *"; sched_callback := cleanupTask;
       sched_options := UTC |} ].

(** A task that registers nothing with node-cron, whatever its
    collaborators answer. *)
Inductive Quiet : Task -> Prop :=
| Quiet_Done : Quiet Done
| Quiet_Throw error : Quiet (Throw error)
| Quiet_ConsoleLog args next : Quiet next -> Quiet (ConsoleLog args next)
| Quiet_ConsoleError args next : Quiet next -> Quiet (ConsoleError args next)
| Quiet_AwaitBackup next :
    (forall o, Quiet (next o)) -> Quiet (AwaitCreateDatabaseBackup next)
| Quiet_LogBackup entry next :
    (forall o, Quiet (next o)) -> Quiet (LogBackup entry next)
| Quiet_AwaitRetention next :
    (forall o, Quiet (next o)) -> Quiet (AwaitApplyRetentionPolicy next).

Definition QuietPaused (p : Paused) : Prop :=
  match p with
  | Settled _ => True
  | AwaitingBackup next => forall o, Quiet (next o)
  | AwaitingRetention next => forall o, Quiet (next o)
  end.

(** What holds of the process at every moment after start-up. *)
Definition QuietNode (s : Node) : Prop :=
  Forall (fun sch => Quiet (sched_callback sch)) (registry (world s))
  /\ Forall (fun r => QuietPaused (run_paused r)) (running s).

(* ------------------------------------------------------------------ *)
(** ** Cron expressions *)

Inductive CronField : Type := AnyValue | Exactly (n : nat).

Record CronExpression := {
  cron_minute : CronField;
  cron_hour : CronField;
  cron_dayOfMonth : CronField;
  cron_month : CronField;
  cron_dayOfWeek : CronField
}.

(** A wall-clock minute in the timezone of the schedule. *)
Record Instant := {
  at_minute : nat;
  at_hour : nat;
  at_dayOfMonth : nat;
  at_month : nat;
  at_dayOfWeek : nat          (* 0 is Sunday *)
}.

(** Modelled from the spec: the pieces of a cron expression, which
    node-cron (a dependency whose source is missing) splits at spaces
    and reads as [*] or as a number within the range of the field. *)
Fixpoint splitOn (sep : ascii) (s : string) : list string :=
  match s with
  | EmptyString => [EmptyString]
  | String c rest =>
      if Ascii.eqb c sep then EmptyString :: splitOn sep rest
      else match splitOn sep rest with
           | [] => [String c EmptyString]
           | word :: words => String c word :: words
           end
  end.

Definition digit (c : ascii) : option nat :=
  let n := nat_of_ascii c in
  if (48 <=? n)%nat && (n <=? 57)%nat then Some (n - 48)%nat else None.

Fixpoint number (acc : nat) (s : string) : option nat :=
  match s with
  | EmptyString => Some acc
  | String c rest =>
      match digit c with
      | Some d => number (10 * acc + d) rest
      | None => None
      end
  end.

Definition parseField (lo hi : nat) (s : string) : option CronField :=
  if String.eqb s "*" then Some AnyValue
  else match s with
       | EmptyString => None
       | _ => match number 0 s with
              | Some n => if (lo <=? n)%nat && (n <=? hi)%nat
                          then Some (Exactly n) else None
              | None => None
              end
       end.

(** Modelled from the spec: how node-cron (a dependency whose source is
    missing) reads the expressions the scheduler uses, five fields
    [minute hour day-of-month month day-of-week], each [*] or a number,
    which the spec spells out as "daily 02:00", "weekly Sunday 03:00",
    "monthly 1st-of-month 04:00" and "cleanup daily 05:00". *)
Definition parseCron (s : string) : option CronExpression :=
  match splitOn " "%char s with
  | [mi; ho; dm; mo; dw] =>
      match parseField 0 59 mi, parseField 0 23 ho, parseField 1 31 dm,
            parseField 1 12 mo, parseField 0 7 dw with
      | Some a, Some b, Some c, Some d, Some e =>
          Some {| cron_minute := a; cron_hour := b; cron_dayOfMonth := c;
                  cron_month := d; cron_dayOfWeek := e |}
      | _, _, _, _, _ => None
      end
  | _ => None
  end.

Definition fieldMatches (f : CronField) (v : nat) : bool :=
  match f with
  | AnyValue => true
  | Exactly n => Nat.eqb n v
  end.

Definition fires (e : CronExpression) (t : Instant) : bool :=
  fieldMatches (cron_minute e) (at_minute t)
  && fieldMatches (cron_hour e) (at_hour t)
  && fieldMatches (cron_dayOfMonth e) (at_dayOfMonth t)
  && fieldMatches (cron_month e) (at_month t)
  && fieldMatches (cron_dayOfWeek e) (at_dayOfWeek t).

(** When the registered task fires, [None] for an unreadable expression. *)
Definition firesAt (sch : Scheduled) (t : Instant) : option bool :=
  option_map (fun e => fires e t) (parseCron (sched_expression sch)).



(* ------------------------------------------------------------------ *)
(** ** The Retention Engine *)

(** Modelled from the spec: the retention rule of each tier.  The sweep
    itself is [backupService.applyRetentionPolicy], whose source is
    missing; the spec gives Daily 7, Weekly 4 and Monthly unlimited. *)
Definition keepCount (tier : Tier) : option nat :=
  match tier with
  | Daily => Some 7%nat
  | Weekly => Some 4%nat
  | Monthly => None
  end.

(** Modelled from the spec: the filters of the Backup Log's query, by
    tier, by status and by the reclaimed flag. *)
Definition isTier (tier : Tier) (e : BackupEntry) : bool :=
  String.eqb (entry_type (info e)) (tierName tier).

Definition isSuccess (tier : Tier) (e : BackupEntry) : bool :=
  isTier tier e && String.eqb (entry_status (info e)) "success".

Definition isLive (tier : Tier) (e : BackupEntry) : bool :=
  isSuccess tier e && negb (reclaimed e).

(** Modelled from the spec: [successfulCount], the number of successful
    entries logged for a tier. *)
Definition successfulCount (tier : Tier) (log : list BackupEntry) : nat :=
  length (filter (isSuccess tier) log).

(** Modelled from the spec: an entry together with its [entryId], here
    its position in the log. *)
Definition Candidate : Type := (nat * BackupEntry)%type.

Definition indexed (log : list BackupEntry) : list Candidate :=
  combine (seq 0 (length log)) log.

(** Modelled from the spec: "ordered by timestamp descending", by
    insertion. *)
Fixpoint insertDesc (x : Candidate) (l : list Candidate) : list Candidate :=
  match l with
  | [] => [x]
  | y :: l' =>
      if (timestamp (snd y) <=? timestamp (snd x))%Z then x :: y :: l'
      else y :: insertDesc x l'
  end.

Definition sortDesc (l : list Candidate) : list Candidate :=
  fold_right insertDesc [] l.

(** The order of a list sorted newest first. *)
Definition newerFirst (a b : Candidate) : Prop :=
  (timestamp (snd b) <= timestamp (snd a))%Z.

(** Modelled from the spec: step 1 of the algorithm, "select all Success,
    non-reclaimed entries for that tier, ordered by timestamp
    descending". *)
Definition selected (tier : Tier) (log : list BackupEntry) : list Candidate :=
  sortDesc (filter (fun c => isLive tier (snd c)) (indexed log)).

(** Modelled from the spec: step 2, "keep the first N; every entry beyond
    position N is a deletion candidate"; a tier with indefinite retention
    has no candidate. *)
Definition kept (tier : Tier) (log : list BackupEntry) : list Candidate :=
  match keepCount tier with
  | Some n => firstn n (selected tier log)
  | None => selected tier log
  end.

(** Modelled from the spec: the deletion candidates of step 2. *)
Definition candidates (tier : Tier) (log : list BackupEntry) : list Candidate :=
  match keepCount tier with
  | Some n => skipn n (selected tier log)
  | None => []
  end.

(** Modelled from the spec: [markReclaimed(entryId)] flips the flag of
    one entry and removes nothing. *)
Fixpoint markReclaimed (id : nat) (log : list BackupEntry) : list BackupEntry :=
  match id, log with
  | _, [] => []
  | O, e :: log' =>
      {| info := info e; timestamp := timestamp e; reclaimed := true |} :: log'
  | S id', e :: log' => e :: markReclaimed id' log'
  end.

(** Modelled from the spec: the state of a sweep, the log and the
    candidates whose deletion succeeded and failed so far. *)
Record Sweep := {
  sweep_log : list BackupEntry;
  sweep_deleted : list Candidate;
  sweep_failed : list Candidate
}.

(** Modelled from the spec: the storage-delete capability
    [deleteArtifact(destination) -> ok|error] applied to the artifact of
    an entry; an entry without a destination has nothing that could be
    deleted. *)
Definition requestDelete (deleteArtifact : string -> bool) (e : BackupEntry)
    : bool :=
  match entry_destination (info e) with
  | Some d => deleteArtifact d
  | None => false
  end.

(** Modelled from the spec: steps 3 and 4, "for each candidate, request
    deletion of its destination; on successful deletion markReclaimed; on
    deletion failure leave the entry untouched and record the failure". *)
Fixpoint deleteAll (deleteArtifact : string -> bool) (cands : list Candidate)
    (acc : Sweep) : Sweep :=
  match cands with
  | [] => acc
  | c :: rest =>
      if requestDelete deleteArtifact (snd c)
      then deleteAll deleteArtifact rest
             {| sweep_log := markReclaimed (fst c) (sweep_log acc);
                sweep_deleted := sweep_deleted acc ++ [c];
                sweep_failed := sweep_failed acc |}
      else deleteAll deleteArtifact rest
             {| sweep_log := sweep_log acc;
                sweep_deleted := sweep_deleted acc;
                sweep_failed := sweep_failed acc ++ [c] |}
  end.

(** Modelled from the spec: one sweep, "decide deletions per tier,
    independently, then execute them". *)
Definition retentionSweep (deleteArtifact : string -> bool)
    (log : list BackupEntry) : Sweep :=
  deleteAll deleteArtifact
    (candidates Daily log ++ candidates Weekly log ++ candidates Monthly log)
    {| sweep_log := log; sweep_deleted := []; sweep_failed := [] |}.

(** Modelled from the spec: "returns [{removed: count, failures: count}]
    to the caller". *)
Definition retentionResult (s : Sweep) : RetentionResult :=
  {| removed := length (sweep_deleted s);
     failures := length (sweep_failed s) |}.

(** Modelled from the spec: the artifacts of a tier that a sweep
    deleted. *)
Definition deletedOf (tier : Tier) (s : Sweep) : list Candidate :=
  filter (fun c => isTier tier (snd c)) (sweep_deleted s).

(** Modelled from the spec: collaborators whose sweep is the Retention
    Engine above, over a storage whose deletions are decided by
    [deleteArtifact]. *)
Definition withRetention (deleteArtifact : string -> bool) : Services :=
  {| createDatabaseBackup := createDatabaseBackup healthy;
     storageWrite := storageWrite healthy;
     applyRetentionPolicy := fun w =>
       (Returned (retentionResult (retentionSweep deleteArtifact (backupLog w))),
        sweep_log (retentionSweep deleteArtifact (backupLog w)));
     validate := validate healthy |}.

(** A successful backup of the given tier, made at time [t]. *)
Definition backupAt (tier : Tier) (t : Z) (dest : string) : BackupEntry :=
  {| info := successInfo tier {| size := 1024; destination := dest |};
     timestamp := t; reclaimed := false |}.

(** Ten daily backups, oldest first. *)
Definition tenDailies : list BackupEntry :=
  map (fun n => backupAt Daily (Z.of_nat n)
                  (String (ascii_of_nat (97 + n)) EmptyString))
      (seq 0 10).

(* ------------------------------------------------------------------ *)
(** ** The rest of [server.js]: CORS, security logging, error handler *)

(** JavaScript truthiness of a value that is a string or [undefined]:
    [undefined] and the empty string are falsy. *)
Definition truthyString (s : option string) : bool :=
  match s with
  | Some (String _ _) => true
  | _ => false
  end.

(** [SameValueZero] on values that are strings or [undefined], the
    comparison of [Array.prototype.includes]. *)
Definition sameValue (a b : option string) : bool :=
  match a, b with
  | Some x, Some y => String.eqb x y
  | None, None => true
  | _, _ => false
  end.

(** [server.js:67-71]: the array literal, filtered with [Boolean]. *)
Definition allowedOrigins (FRONTEND_URL : option string)
    : list (option string) :=
  filter truthyString
         [Some "http://localhost:3000"; Some "http://localhost:3001";
          FRONTEND_URL].

(** [server.js:66-78], the [origin] function handed to [cors].  The
    result is how [callback] is invoked: [callback(null, true)] is
    [Returned true], [callback(new Error(...))] is [Thrown]. *)
Definition corsOrigin (FRONTEND_URL origin : option string) : Outcome bool :=
  if negb (truthyString origin)
     || existsb (sameValue origin) (allowedOrigins FRONTEND_URL)
  then Returned true
  else Thrown {| message := "Not allowed by CORS" |}.

(** [server.js:37], the origin of the Socket.IO server:
    [process.env.FRONTEND_URL || "http://localhost:3000"]. *)
Definition socketOrigin (FRONTEND_URL : option string) : string :=
  match FRONTEND_URL with
  | Some (String c s) => String c s
  | _ => "http://localhost:3000"
  end.

(** The details object of a security event, [server.js:109-112]. *)
Record EventDetails := {
  details_statusCode : Z;
  details_response : string
}.

(** What the replaced [res.send] calls, in order. *)
Inductive SendCall (Request : Type) : Type :=
| LogSecurityEvent (req : Request) (kind : string) (details : EventDetails)
| OriginalSend (data : JsVal).
Arguments OriginalSend {Request} data.

(** [typeof data === 'string' ? data.substring(0, 200)
                              : 'Non-string response'];
    a string is the sequence of its code units. *)
Definition responseExcerpt (data : JsVal) : string :=
  match data with
  | VStr s => substring 0 200 s
  | _ => "Non-string response"
  end.

(** [server.js:106-115], the function the security logging middleware
    installs as [res.send], for a response whose [statusCode] is
    [statusCode] when it is sent.  [securityMonitor.logSecurityEvent]
    and the original [send] are collaborators; an error thrown by either
    leaves the function.  The result is the calls made and how the
    function ends. *)
Definition wrappedSend {Request : Type}
    (logSecurityEvent : Request -> string -> EventDetails -> Outcome unit)
    (originalSend : JsVal -> Outcome unit)
    (req : Request) (statusCode : Z) (data : JsVal)
    : list (SendCall Request) * Outcome unit :=
  if (400 <=? statusCode)%Z then
    let details := {| details_statusCode := statusCode;
                      details_response := responseExcerpt data |} in
    match logSecurityEvent req "suspicious_activity" details with
    | Returned _ =>
        ([LogSecurityEvent req "suspicious_activity" details;
          OriginalSend data],
         originalSend data)
    | Thrown e =>
        ([LogSecurityEvent req "suspicious_activity" details], Thrown e)
    end
  else ([OriginalSend data], originalSend data).

(** The error object an Express route hands to the error handler, with
    the three properties the handler reads; [None] is [undefined]. *)
Record RouteError := {
  err_status : option Z;
  err_message : option string;
  err_stack : option string
}.

(** What the error handler sends: [res.status(...)] and the JSON body. *)
Record ErrorResponse := {
  res_status : Z;
  res_success : bool;
  res_message : string;
  res_error : option string
}.

(** [server.js:188-195].  [err.status || 500] and
    [err.message || 'Internal Server Error'] fall back on a missing, zero
    or empty value; the console line shows the error by its message. *)
Definition errorHandler (NODE_ENV : option string) (err : RouteError)
    (w : World) : ErrorResponse * World :=
  ({| res_status := match err_status err with
                    | Some 0%Z | None => 500
                    | Some s => s
                    end;
      res_success := false;
      res_message := match err_message err with
                     | Some (String c m) => String c m
                     | _ => "Internal Server Error"
                     end;
      res_error := if sameValue NODE_ENV (Some "production") then None
                   else err_stack err |},
   print Stderr
     [VStr "Express route error:";
      VErr {| message := match err_message err with
                         | Some m => m
                         | None => ""
                         end |}] w).

(* ------------------------------------------------------------------ *)
(** ** Start-up, [server.js:126-137] *)

(** [mongoose.connect(...).then(() => {...}).catch(err => ...)].
    [connected] is how the connection promise settles and [cronJobsInit]
    what [CronJobs.init()] does.  [initializeBackupScheduling()] is
    called without [await]: were its promise to reject, nothing would
    handle the rejection. *)
Definition startup (svc : Services) (connected cronJobsInit : Outcome unit)
    (w : World) : World :=
  match connected with
  | Returned _ =>
      let w1 := print Stdout [VStr "MongoDB connected"] w in
      match cronJobsInit with
      | Returned _ =>
          let w2 := print Stdout [VStr "Email cron jobs initialized"] w1 in
          match exec svc initializeBackupScheduling w2 with
          | (Returned _, w3) => w3
          | (Thrown e, w3) => with_floating (floating w3 ++ [e]) w3
          end
      | Thrown err =>
          print Stderr [VStr "MongoDB connection error:"; VErr err] w1
      end
  | Thrown err => print Stderr [VStr "MongoDB connection error:"; VErr err] w
  end.

(** The process after start-up. *)
Definition started (svc : Services) (connected cronJobsInit : Outcome unit)
    : Node :=
  {| world := startup svc connected cronJobsInit emptyWorld;
     running := []; rejected := [] |}.

(** Log storage that refuses every write. *)
Definition logDown : Services :=
  {| createDatabaseBackup := createDatabaseBackup diskFull;
     storageWrite := fun _ _ =>
       WriteThrows {| message := "log storage unavailable" |};
     applyRetentionPolicy := applyRetentionPolicy healthy;
     validate := validate healthy |}.

(** Log storage whose writes fail later, as rejected promises. *)
Definition logRejecting : Services :=
  {| createDatabaseBackup := createDatabaseBackup healthy;
     storageWrite := fun _ _ =>
       WriteRejects {| message := "log storage unavailable" |};
     applyRetentionPolicy := applyRetentionPolicy healthy;
     validate := validate healthy |}.

(** The record a backup run logs for an export that settled with [o]. *)
Definition outcomeInfo (tier : Tier) (o : Outcome BackupResult) : BackupInfo :=
  match o with
  | Returned r => successInfo tier r
  | Thrown e => failedInfo tier e
  end.

(* ------------------------------------------------------------------ *)
(** ** [routes/budgets.js] and [routes/goals.js] *)

(** A JavaScript object as its own properties in creation order. *)
Definition JsObject (V : Type) : Type := list (string * V).

Fixpoint getProp {V} (key : string) (o : JsObject V) : option V :=
  match o with
  | [] => None
  | (k, v) :: rest => if String.eqb k key then Some v else getProp key rest
  end.

(** Defining a property: an existing key keeps its place and takes the
    new value, a new key goes last. *)
Fixpoint setProp {V} (key : string) (value : V) (o : JsObject V) : JsObject V :=
  match o with
  | [] => [(key, value)]
  | (k, v) :: rest =>
      if String.eqb k key then (k, value) :: rest
      else (k, v) :: setProp key value rest
  end.

(** [{ ...source }] continued into [target]: the properties of [source]
    are defined on [target] one after the other. *)
Definition spread {V} (source target : JsObject V) : JsObject V :=
  fold_left (fun o kv => setProp (fst kv) (snd kv) o) source target.

(** [budgets.js:14] and [goals.js:28], the object the new document is
    built from: [{ ...req.body, user: req.user._id }]. *)
Definition newDocument {V} (body : JsObject V) (userId : V) : JsObject V :=
  setProp "user" userId (spread body []).

Module MonthlyLimit.
Import PrimFloat.
Local Open Scope float_scope.

(** The response body of [GET /monthly-limit], without the two calendar
    fields. *)
Record Status := {
  limit : float;
  totalSpent : float;
  remaining : float;
  percentage : float;
  isExceeded : bool;
  isNearLimit : bool
}.

(** Truthiness of a number: zero (of either sign) and NaN are falsy. *)
Definition truthy (x : float) : bool := negb (x =? 0) && negb (is_nan x).

(** [Math.max(0, x)]: NaN if [x] is NaN, and the positive zero for a
    zero of either sign. *)
Definition max0 (x : float) : float :=
  if is_nan x then x else if 0 <? x then x else 0.

(** [Math.min(100, x)]. *)
Definition min100 (x : float) : float :=
  if is_nan x then x else if x <? 100 then x else 100.

(** [budgets.js:120-133].  [monthlyBudgetLimit] is the field of the user
    document ([None] when it is missing) and [monthlyExpenses] the totals
    of the groups the aggregation returned. *)
Definition monthlyLimitStatus (monthlyBudgetLimit : option float)
    (monthlyExpenses : list float) : Status :=
  let totalSpent := match monthlyExpenses with
                    | total :: _ => total
                    | [] => 0
                    end in
  let limit := match monthlyBudgetLimit with
               | Some l => if truthy l then l else 0
               | None => 0
               end in
  let remaining := limit - totalSpent in
  let percentage := if 0 <? limit then (totalSpent / limit) * 100 else 0 in
  let isExceeded := (limit <? totalSpent) && (0 <? limit) in
  let isNearLimit := (80 <=? percentage) && negb isExceeded in
  {| limit := limit;
     totalSpent := totalSpent;
     remaining := max0 remaining;
     percentage := min100 percentage;
     isExceeded := isExceeded;
     isNearLimit := isNearLimit |}.

End MonthlyLimit.

(* ================================================================== *)
(** * Properties *)

(* ------------------------------------------------------------------ *)
(** ** What one backup run does *)

(** The three backup callbacks differ in their strings only: a run is the
    start line, the export, and then either the completion line and the
    success record, or the [catch] block. *)
Lemma exec_tierTask (svc : Services) (tier : Tier) (w : World) :
  exec svc (tierTask tier) w =
  let w1 := print Stdout (startLine tier) w in
  match createDatabaseBackup svc w1 with
  | Returned r =>
      let w2 := print Stdout (completedLine tier) w1 in
      match storageWrite svc (successInfo tier r) w2 with
      | WriteThrows e => recover svc tier e w2
      | _ => append svc (successInfo tier r) w2
      end
  | Thrown e => recover svc tier e w1
  end.
Proof.
  destruct tier; cbn;
    unfold recover, append, successInfo, failedInfo, failedLine; cbn;
    (destruct (createDatabaseBackup svc _) as [r|e]; cbn;
     repeat (unfold append;
             match goal with
             | |- context [match storageWrite svc ?a ?b with _ => _ end] =>
                 destruct (storageWrite svc a b) eqn:?
             end; cbn);
     reflexivity || congruence).
Qed.

Lemma backupLog_print (s : Stream) (args : list JsVal) (w : World) :
  backupLog (print s args w) = backupLog w.
Proof. reflexivity. Qed.

Lemma clock_print (s : Stream) (args : list JsVal) (w : World) :
  clock (print s args w) = clock w.
Proof. reflexivity. Qed.

(** A write either adds the stamped record at the end or leaves the log
    as it was. *)
Lemma append_backupLog (svc : Services) (entry : BackupInfo) (w : World) :
  backupLog (snd (append svc entry w)) =
  match storageWrite svc entry w with
  | WriteOk => backupLog w ++ [stamped w entry]
  | _ => backupLog w
  end.
Proof. unfold append; destruct (storageWrite svc entry w); reflexivity. Qed.

Lemma append_registry (svc : Services) (entry : BackupInfo) (w : World) :
  registry (snd (append svc entry w)) = registry w.
Proof. unfold append; destruct (storageWrite svc entry w); reflexivity. Qed.

(** Whatever the collaborators do, a backup run adds at most one record
    to the log, and that record names the tier of the callback. *)
Lemma backup_run_log (svc : Services) (tier : Tier) (w : World) :
  exists new,
    backupLog (snd (exec svc (tierTask tier) w)) = backupLog w ++ new
    /\ (length new <= 1)%nat
    /\ Forall (fun e => entry_type (info e) = tierName tier) new.
Proof.
  rewrite exec_tierTask; cbv zeta.
  destruct (createDatabaseBackup svc _) as [r|e].
  - destruct (storageWrite svc (successInfo tier r) _) as [|e1|e1] eqn:Hw.
    + rewrite append_backupLog, Hw.
      eexists; split; [reflexivity|]. split; [simpl; lia|].
      constructor; [reflexivity|constructor].
    + unfold recover. rewrite append_backupLog.
      destruct (storageWrite svc (failedInfo tier e1) _).
      * eexists; split; [reflexivity|]. split; [simpl; lia|].
        constructor; [reflexivity|constructor].
      * exists []; rewrite app_nil_r; repeat split; auto.
      * exists []; rewrite app_nil_r; repeat split; auto.
    + rewrite append_backupLog, Hw.
      exists []; rewrite app_nil_r; repeat split; auto.
  - unfold recover. rewrite append_backupLog.
    destruct (storageWrite svc (failedInfo tier e) _).
    + eexists; split; [reflexivity|]. split; [simpl; lia|].
      constructor; [reflexivity|constructor].
    + exists []; rewrite app_nil_r; repeat split; auto.
    + exists []; rewrite app_nil_r; repeat split; auto.
Qed.

(** C2, as the code has it.  Every invocation of the Daily, Weekly or
    Monthly callback appends at most one record to the backup log, never
    two, and the log before the run is a prefix of the log after it.  The
    record is the success record when the export succeeds and its write
    is accepted, and the failure record when the export fails, or the
    write of the success record throws, and the write of the failure
    record is accepted.  A run whose last log write is refused appends
    nothing.  On a log storage that accepts every write the run appends
    exactly one record. *)
Theorem backup_run_appends_at_most_one_entry
    (svc : Services) (tier : Tier) (w : World) :
  let w1 := print Stdout (startLine tier) w in
  let w2 := print Stdout (completedLine tier) w1 in
  let after := exec svc (tierTask tier) w in
  backupLog (snd after) =
  backupLog w ++
  match createDatabaseBackup svc w1 with
  | Returned r =>
      match storageWrite svc (successInfo tier r) w2 with
      | WriteOk => [stamped w (successInfo tier r)]
      | WriteThrows e =>
          match storageWrite svc (failedInfo tier e)
                             (print Stderr (failedLine tier e) w2) with
          | WriteOk => [stamped w (failedInfo tier e)]
          | _ => []
          end
      | WriteRejects _ => []
      end
  | Thrown e =>
      match storageWrite svc (failedInfo tier e)
                         (print Stderr (failedLine tier e) w1) with
      | WriteOk => [stamped w (failedInfo tier e)]
      | _ => []
      end
  end
  /\ (length (backupLog (snd after)) <= S (length (backupLog w)))%nat
  /\ ((forall entry w', storageWrite svc entry w' = WriteOk) ->
      backupLog (snd after) =
      backupLog w ++ [stamped w (outcomeInfo tier (createDatabaseBackup svc w1))]).
Proof.
  cbv zeta.
  assert (Hlog :
    backupLog (snd (exec svc (tierTask tier) w)) =
    backupLog w ++
    match createDatabaseBackup svc (print Stdout (startLine tier) w) with
    | Returned r =>
        match storageWrite svc (successInfo tier r)
                (print Stdout (completedLine tier)
                   (print Stdout (startLine tier) w)) with
        | WriteOk => [stamped w (successInfo tier r)]
        | WriteThrows e =>
            match storageWrite svc (failedInfo tier e)
                    (print Stderr (failedLine tier e)
                       (print Stdout (completedLine tier)
                          (print Stdout (startLine tier) w))) with
            | WriteOk => [stamped w (failedInfo tier e)]
            | _ => []
            end
        | WriteRejects _ => []
        end
    | Thrown e =>
        match storageWrite svc (failedInfo tier e)
                (print Stderr (failedLine tier e)
                   (print Stdout (startLine tier) w)) with
        | WriteOk => [stamped w (failedInfo tier e)]
        | _ => []
        end
    end).
  { rewrite exec_tierTask; cbv zeta.
    destruct (createDatabaseBackup svc _) as [r|e].
    - destruct (storageWrite svc (successInfo tier r) _) as [|e1|e1] eqn:Hw.
      + rewrite append_backupLog, Hw. reflexivity.
      + unfold recover. rewrite append_backupLog.
        destruct (storageWrite svc (failedInfo tier e1) _);
          rewrite ?app_nil_r; reflexivity.
      + rewrite append_backupLog, Hw, app_nil_r. reflexivity.
    - unfold recover. rewrite append_backupLog.
      destruct (storageWrite svc (failedInfo tier e) _);
        rewrite ?app_nil_r; reflexivity. }
  split; [exact Hlog|]. split.
  - destruct (backup_run_log svc tier w) as (new & Hnew & Hlen & _).
    rewrite Hnew, length_app. lia.
  - intro Hstorage. rewrite Hlog.
    destruct (createDatabaseBackup svc _) as [r|e];
      rewrite Hstorage; reflexivity.
Qed.

(** C2, as stated, fails: the claim has every invocation append a
    record, never zero.  With a log storage whose write fails as a
    rejected promise the daily run ends fulfilled and the log is empty;
    with a log storage that throws, the run whose export failed rejects
    and the log is empty. *)
Lemma refused_log_write_leaves_no_entry :
  fst (exec logRejecting (tierTask Daily) emptyWorld) = Returned tt
  /\ backupLog (snd (exec logRejecting (tierTask Daily) emptyWorld)) = []
  /\ fst (exec logDown (tierTask Daily) emptyWorld)
     = Thrown {| message := "log storage unavailable" |}
  /\ backupLog (snd (exec logDown (tierTask Daily) emptyWorld)) = [].
Proof. repeat split. Qed.

Lemma nth_error_snoc {A} (l : list A) (x : A) :
  nth_error (l ++ [x]) (length l) = Some x.
Proof. induction l as [|y l IH]; cbn; auto. Qed.

Lemma remove_nth_snoc {A} (l : list A) (x : A) :
  remove_nth (length l) (l ++ [x]) = l.
Proof. induction l as [|y l IH]; cbn; [reflexivity | rewrite IH; reflexivity]. Qed.

(** A backup callback runs as far as its export and waits there; when
    the export then rejects, the rest of the callback is its [catch]
    block and the callback settles with it. *)
Lemma advance_tierTask_recover (svc : Services) (tier : Tier) (w : World) :
  exists next,
    advance svc (tierTask tier) w =
    (AwaitingBackup next, print Stdout (startLine tier) w)
    /\ forall error w',
         advance svc (next (Thrown error)) w' =
         (Settled (fst (recover svc tier error w')),
          snd (recover svc tier error w')).
Proof.
  destruct tier; eexists; (split; [reflexivity|]);
    intros error w'; cbn; unfold recover, append; cbn;
    destruct (storageWrite svc _ _); reflexivity.
Qed.

Lemma recover_registry (svc : Services) (tier : Tier) (error : Error)
    (w : World) :
  registry (snd (recover svc tier error w)) = registry w.
Proof. unfold recover. rewrite append_registry. reflexivity. Qed.

(** In the running process: a trigger fires, the export it started
    rejects.  The invocation is over and the registry is what it was;
    the callback's promise has rejected exactly when the write of the
    failure record threw. *)
Lemma rejected_export_settles (svc : Services) (s : Node) (job : nat)
    (tier : Tier) (error : Error) :
  option_map sched_callback (nth_error (registry (world s)) job)
  = Some (tierTask tier) ->
  let s2 := steps svc [Tick job;
                       BackupSettles (length (running s)) (Thrown error)] s in
  running s2 = running s
  /\ registry (world s2) = registry (world s)
  /\ rejected s2 =
     match storageWrite svc (failedInfo tier error)
             (print Stderr (failedLine tier error)
                (print Stdout (startLine tier) (world s))) with
     | WriteThrows thrown => rejected s ++ [thrown]
     | _ => rejected s
     end.
Proof.
  intros Hjob.
  destruct (advance_tierTask_recover svc tier (world s))
    as (next & Hadv & Hnext).
  assert (Hs1 : step svc (Tick job) s =
                {| world := print Stdout (startLine tier) (world s);
                   running := running s ++ [{| run_job := job;
                                               run_paused := AwaitingBackup next |}];
                   rejected := rejected s |}).
  { unfold step.
    destruct (nth_error (registry (world s)) job) as [sch|]; [|discriminate].
    cbn in Hjob. injection Hjob as Hcb. rewrite Hcb, Hadv. reflexivity. }
  cbv zeta. unfold steps; cbn [fold_left]. rewrite Hs1.
  unfold step. cbn [running world rejected].
  rewrite nth_error_snoc, Hnext. cbn [fst snd].
  rewrite remove_nth_snoc.
  unfold recover, append.
  destruct (storageWrite svc (failedInfo tier error) _); cbn; repeat split.
Qed.

(** C3, as the code has it.  When the export of a scheduled run raises an
    error, the callback catches it, prints the tier's 'backup failed:'
    line and hands [logBackup] a record with status "failed" whose
    [error] is the message of the raised error and whose [size] and
    [destination] are absent.  If that write is accepted the record is
    appended and the callback's promise is fulfilled; if that write
    throws, nothing is appended and the promise rejects with what the
    write threw; if that write fails as a rejected promise, nothing is
    appended and the promise is fulfilled.  In every case the registered
    schedules are what they were and, in the running process, the
    invocation is over and the same trigger starts a run again. *)
Theorem export_error_is_caught_at_the_task_boundary
    (svc : Services) (tier : Tier) (w : World) (error : Error)
    (Hexport : createDatabaseBackup svc (print Stdout (startLine tier) w)
               = Thrown error) :
  let failedRecord :=
    {| entry_type := tierName tier;
       entry_size := None;
       entry_status := "failed";
       entry_destination := None;
       entry_error := Some (message error) |} in
  let w3 := print Stderr (failedLine tier error)
              (print Stdout (startLine tier) w) in
  exec svc (tierTask tier) w =
  match storageWrite svc failedRecord w3 with
  | WriteOk =>
      (Returned tt,
       with_backupLog
         (backupLog w ++ [ {| info := failedRecord; timestamp := clock w;
                              reclaimed := false |} ]) w3)
  | WriteThrows thrown => (Thrown thrown, w3)
  | WriteRejects reason =>
      (Returned tt, with_floating (floating w ++ [reason]) w3)
  end
  /\ registry (snd (exec svc (tierTask tier) w)) = registry w
  /\ forall (s : Node) (job : nat),
       option_map sched_callback (nth_error (registry (world s)) job)
       = Some (tierTask tier) ->
       let s2 := steps svc [Tick job;
                            BackupSettles (length (running s)) (Thrown error)]
                       s in
       running s2 = running s
       /\ registry (world s2) = registry (world s)
       /\ rejected s2 =
          match storageWrite svc failedRecord
                  (print Stderr (failedLine tier error)
                     (print Stdout (startLine tier) (world s))) with
          | WriteThrows thrown => rejected s ++ [thrown]
          | _ => rejected s
          end
       /\ runningOf job (step svc (Tick job) s2) = S (runningOf job s2).
Proof.
  cbv zeta.
  change {| entry_type := tierName tier; entry_size := None;
            entry_status := "failed"; entry_destination := None;
            entry_error := Some (message error) |}
    with (failedInfo tier error).
  split; [|split].
  - rewrite exec_tierTask; cbv zeta. rewrite Hexport.
    unfold recover, append.
    destruct (storageWrite svc (failedInfo tier error) _); reflexivity.
  - rewrite exec_tierTask; cbv zeta. rewrite Hexport.
    rewrite recover_registry. reflexivity.
  - intros s job Hjob.
    destruct (@rejected_export_settles svc s job tier error Hjob)
      as (Hrun & Hreg & Hrej).
    split; [exact Hrun|]. split; [exact Hreg|]. split; [exact Hrej|].
    set (s2 := steps svc _ s) in *.
    unfold step. rewrite Hreg.
    destruct (nth_error (registry (world s)) job) as [sch|]; [|discriminate].
    cbn in Hjob. injection Hjob as Hcb. rewrite Hcb.
    destruct (advance_tierTask_recover svc tier (world s2))
      as (next & Hadv & _).
    rewrite Hadv. cbn. unfold runningOf. cbn.
    rewrite filter_app, length_app. cbn. rewrite Nat.eqb_refl. cbn. lia.
Qed.

Lemma export_error_is_caught_at_the_task_boundary_witness :
  exec diskFull (tierTask Daily) emptyWorld =
  (Returned tt,
   with_backupLog
     ([] ++ [ {| info := {| entry_type := "daily";
                            entry_size := None;
                            entry_status := "failed";
                            entry_destination := None;
                            entry_error := Some "disk full" |};
                 timestamp := 0;
                 reclaimed := false |} ])
     (print Stderr (failedLine Daily {| message := "disk full" |})
        (print Stdout (startLine Daily) emptyWorld)))
  /\ registry (snd (exec diskFull (tierTask Daily) emptyWorld)) = []
  /\ (let s2 := steps diskFull
                    [Tick 0;
                     BackupSettles 0 (Thrown {| message := "disk full" |})]
                    (booted diskFull) in
      running s2 = []
      /\ registry (world s2) = fourSchedules
      /\ rejected s2 = []
      /\ runningOf 0 (step diskFull (Tick 0) s2) = 1%nat).
Proof.
  pose proof (@export_error_is_caught_at_the_task_boundary
                diskFull Daily emptyWorld
                {| message := "disk full" |} eq_refl) as H.
  cbv zeta in H. destruct H as (H1 & H2 & H3).
  split; [exact H1|]. split; [exact H2|].
  exact (H3 (booted diskFull) 0%nat eq_refl).
Defined.

(** C3, as stated, fails: the claim has every export error end as a
    Failed record, with no exception leaving the task.  With a log
    storage that throws, the daily run whose export failed with 'disk
    full' rejects with the error of the log write, the log stays empty,
    and in the running process the callback's promise is among the
    rejected ones. *)
Lemma export_error_with_failing_log_write_rejects :
  fst (exec logDown (tierTask Daily) emptyWorld)
  = Thrown {| message := "log storage unavailable" |}
  /\ backupLog (snd (exec logDown (tierTask Daily) emptyWorld)) = []
  /\ rejected (steps logDown
                 [Tick 0;
                  BackupSettles 0 (Thrown {| message := "disk full" |})]
                 (booted logDown))
     = [ {| message := "log storage unavailable" |} ]
  /\ backupLog (world (steps logDown
                         [Tick 0;
                          BackupSettles 0 (Thrown {| message := "disk full" |})]
                         (booted logDown))) = [].
Proof. repeat split. Qed.

(** C10. The record a backup callback appends carries the [type] of the
    tier whose trigger fired, 'daily', 'weekly' or 'monthly', whichever
    branch wrote it and whatever the collaborators did; the cleanup
    callback appends nothing: after it the log is what the sweep
    returned. *)
Theorem entries_carry_the_tier_that_fired
    (svc : Services) (tier : Tier) (w : World) :
  (exists new,
     backupLog (snd (exec svc (tierTask tier) w)) = backupLog w ++ new
     /\ Forall (fun e => entry_type (info e) = tierName tier) new)
  /\ map tierName [Daily; Weekly; Monthly] = ["daily"; "weekly"; "monthly"]
  /\ backupLog (snd (exec svc cleanupTask w)) =
     snd (applyRetentionPolicy svc
            (print Stdout [VStr "[BACKUP] Running retention policy cleanup..."] w)).
Proof.
  split; [|split].
  - destruct (backup_run_log svc tier w) as (new & Hlog & _ & Htier).
    exists new; auto.
  - reflexivity.
  - cbn. destruct (applyRetentionPolicy svc _) as [[res|e] log']; reflexivity.
Qed.

(* ------------------------------------------------------------------ *)
(** ** The cleanup callback *)

(** C6, as the code has it.  The cleanup callback appends no record of
    its own.  On each firing it prints its start line, calls
    [applyRetentionPolicy()] and prints the count removed; an error of
    the sweep is caught and printed on the error stream.  Either way the
    callback's promise is fulfilled and the registered schedules are
    untouched. *)
Theorem cleanup_run_reports_and_returns (svc : Services) (w : World) :
  let w1 :=
    print Stdout [VStr "[BACKUP] Running retention policy cleanup..."] w in
  let after := exec svc cleanupTask w in
  fst after = Returned tt
  /\ backupLog (snd after) = snd (applyRetentionPolicy svc w1)
  /\ registry (snd after) = registry w
  /\ floating (snd after) = floating w
  /\ console (snd after) =
     console w1 ++
     [ match fst (applyRetentionPolicy svc w1) with
       | Returned result =>
           {| stream := Stdout;
              line := [VStr "[BACKUP] Retention policy applied. Removed:";
                       VNum (Z.of_nat (removed result))] |}
       | Thrown error =>
           {| stream := Stderr;
              line := [VStr "[BACKUP] Retention policy failed:";
                       VErr error] |}
       end ].
Proof.
  cbn. destruct (applyRetentionPolicy svc _) as [[res|e] log']; cbn;
    repeat split.
Qed.

(** C6, as stated, fails: the claim has the cleanup task append its
    entry first.  A cleanup run over an empty log leaves the log empty,
    and over ten logged backups leaves ten records. *)
Lemma cleanup_appends_no_entry :
  backupLog (snd (exec healthy cleanupTask emptyWorld)) = []
  /\ length (backupLog
               (snd (exec (withRetention (fun _ => true)) cleanupTask
                          (with_backupLog tenDailies emptyWorld))))
     = length tenDailies.
Proof. split; reflexivity. Qed.

(* ------------------------------------------------------------------ *)
(** ** Failing log writes *)

(** C7, as the code has it.  A log write that throws while the success
    record is being written lands in the callback's own [catch]: the run
    is printed as failed and the callback tries to log a failure record
    that carries the message of the log-write error; if that second
    write goes through, the callback's promise is fulfilled and no
    rejection is left for the process-level handlers.  A log write that
    throws inside the [catch] block is caught by nothing: the callback's
    promise rejects with it and no record is written. *)
Theorem log_write_failure_handling
    (svc : Services) (tier : Tier) (w : World) :
  let w1 := print Stdout (startLine tier) w in
  let w2 := print Stdout (completedLine tier) w1 in
  (forall r e,
     createDatabaseBackup svc w1 = Returned r ->
     storageWrite svc (successInfo tier r) w2 = WriteThrows e ->
     let w3 := print Stderr (failedLine tier e) w2 in
     exec svc (tierTask tier) w =
     match storageWrite svc (failedInfo tier e) w3 with
     | WriteOk =>
         (Returned tt,
          with_backupLog (backupLog w ++ [stamped w (failedInfo tier e)]) w3)
     | WriteThrows e2 => (Thrown e2, w3)
     | WriteRejects e2 =>
         (Returned tt, with_floating (floating w ++ [e2]) w3)
     end)
  /\ (forall e e2,
        createDatabaseBackup svc w1 = Thrown e ->
        storageWrite svc (failedInfo tier e)
                     (print Stderr (failedLine tier e) w1) = WriteThrows e2 ->
        exec svc (tierTask tier) w =
        (Thrown e2, print Stderr (failedLine tier e) w1)).
Proof.
  cbv zeta; split.
  - intros r e Hexport Hwrite.
    rewrite exec_tierTask; cbv zeta. rewrite Hexport, Hwrite.
    unfold recover, append.
    destruct (storageWrite svc (failedInfo tier e) _); reflexivity.
  - intros e e2 Hexport Hwrite.
    rewrite exec_tierTask; cbv zeta. rewrite Hexport.
    unfold recover, append. rewrite Hwrite. reflexivity.
Qed.

Lemma log_write_failure_handling_witness :
  exec flaky (tierTask Daily) emptyWorld =
  (Returned tt,
   with_backupLog
     ([] ++ [stamped emptyWorld
               (failedInfo Daily {| message := "log storage unavailable" |})])
     (print Stderr (failedLine Daily {| message := "log storage unavailable" |})
        (print Stdout (completedLine Daily)
           (print Stdout (startLine Daily) emptyWorld)))).
Proof.
  apply (proj1 (log_write_failure_handling flaky Daily emptyWorld)
           {| size := 2048; destination := "backups/dump.gz" |}
           {| message := "log storage unavailable" |});
    reflexivity.
Defined.

(** C7, as stated, fails: the claim has a failed log write escalated to
    process-level error reporting instead of being logged by the task
    itself.  With a log storage that refuses the success record, the
    daily run writes the log-write error into the backup log as a
    failure record, its promise is fulfilled, no rejection is left
    floating, and neither process-level handler prints a line. *)
Lemma log_write_failure_is_self_logged :
  let after := exec flaky dailyTask emptyWorld in
  fst after = Returned tt
  /\ map info (backupLog (snd after)) =
     [ {| entry_type := "daily"; entry_size := None;
          entry_status := "failed"; entry_destination := None;
          entry_error := Some "log storage unavailable" |} ]
  /\ floating (snd after) = []
  /\ console (deliverRejections flaky (snd after)) =
     [ {| stream := Stdout;
          line := [VStr "[BACKUP] Starting daily backup..."] |};
       {| stream := Stdout;
          line := [VStr "[BACKUP] Daily backup completed successfully"] |};
       {| stream := Stderr;
          line := [VStr "[BACKUP] Daily backup failed:";
                   VErr {| message := "log storage unavailable" |}] |} ]
  /\ rejected (steps flaky
                 [Tick 0;
                  BackupSettles 0 (Returned {| size := 2048;
                                               destination := "backups/dump.gz" |})]
                 (booted flaky)) = [].
Proof. cbv zeta; repeat split. Qed.

(* ------------------------------------------------------------------ *)
(** ** Overlapping runs *)

(** A backup callback runs as far as its export and waits there. *)
Lemma advance_tierTask (svc : Services) (tier : Tier) (w : World) :
  exists next,
    advance svc (tierTask tier) w =
    (AwaitingBackup next, print Stdout (startLine tier) w).
Proof. destruct tier; eexists; reflexivity. Qed.

(** C1, as the code has it.  The scheduler keeps no in-flight flag.
    Whenever the trigger of a backup tier fires, the callback is invoked:
    it prints its start line and waits for its export, one more run of
    that tier is in flight than before, however many already were, and
    nothing is skipped. *)
Theorem every_tick_starts_a_run
    (svc : Services) (s : Node) (job : nat) (tier : Tier)
    (Hjob : option_map sched_callback (nth_error (registry (world s)) job)
            = Some (tierTask tier)) :
  let s' := step svc (Tick job) s in
  runningOf job s' = S (runningOf job s)
  /\ length (running s') = S (length (running s))
  /\ console (world s') =
     console (world s) ++ [{| stream := Stdout; line := startLine tier |}]
  /\ backupLog (world s') = backupLog (world s).
Proof.
  cbv zeta. unfold step.
  destruct (nth_error (registry (world s)) job) as [sch|]; [|discriminate].
  cbn in Hjob. injection Hjob as Hcb. rewrite Hcb.
  destruct (advance_tierTask svc tier (world s)) as [next Hadv].
  rewrite Hadv. cbn. unfold runningOf. cbn.
  rewrite filter_app, !length_app. cbn. rewrite Nat.eqb_refl. cbn.
  repeat split; lia.
Qed.

Lemma every_tick_starts_a_run_witness :
  let s := step healthy (Tick 0) (booted healthy) in
  let s' := step healthy (Tick 0) s in
  runningOf 0 s' = S (runningOf 0 s)
  /\ length (running s') = S (length (running s))
  /\ console (world s') =
     console (world s) ++ [{| stream := Stdout; line := startLine Daily |}]
  /\ backupLog (world s') = backupLog (world s).
Proof.
  apply (@every_tick_starts_a_run healthy
           (step healthy (Tick 0) (booted healthy)) 0 Daily).
  reflexivity.
Defined.

(** C1, as stated, fails: the claim has a firing skipped, and the skip
    logged, while the tier's previous run is still executing.  Two daily
    triggers in a row, the first export still pending at the second: both
    runs start, two daily runs are in flight, and the console shows two
    start lines and no skip. *)
Lemma overlapping_daily_runs_both_start :
  let s := steps healthy [Tick 0; Tick 0] (booted healthy) in
  runningOf 0 s = 2%nat
  /\ console (world s) =
     console (world (booted healthy)) ++
     [ {| stream := Stdout;
          line := [VStr "[BACKUP] Starting daily backup..."] |};
       {| stream := Stdout;
          line := [VStr "[BACKUP] Starting daily backup..."] |} ].
Proof. cbv zeta; split; reflexivity. Qed.

(** The two readings of a task agree: running it to completion is
    running it to its next [await] and going on from there with what the
    collaborator answers. *)
Lemma exec_advance (svc : Services) (t : Task) (w : World) :
  exec svc t w =
  match advance svc t w with
  | (Settled o, w') => (o, w')
  | (AwaitingBackup next, w') =>
      exec svc (next (createDatabaseBackup svc w')) w'
  | (AwaitingRetention next, w') =>
      exec svc (next (fst (applyRetentionPolicy svc w')))
           (with_backupLog (snd (applyRetentionPolicy svc w')) w')
  end.
Proof.
  revert w; induction t; intro w; cbn; auto.
Qed.

(* ------------------------------------------------------------------ *)
(** ** The registered schedules *)

Lemma Quiet_try_catch (body : Task) (handler : Error -> Task) :
  Quiet body -> (forall e, Quiet (handler e)) ->
  Quiet (try_catch body handler).
Proof.
  intros Hbody Hhandler; induction Hbody; cbn; auto; constructor; auto.
Qed.

Lemma Quiet_rethrow {A} (k : A -> Task) (o : Outcome A) :
  (forall a, Quiet (k a)) -> Quiet (rethrow k o).
Proof. intro Hk; destruct o; cbn; [apply Hk | constructor]. Qed.

Lemma Quiet_tierTask (tier : Tier) : Quiet (tierTask tier).
Proof.
  destruct tier; apply Quiet_try_catch;
    repeat (constructor || intro || apply Quiet_rethrow).
Qed.

Lemma Quiet_cleanupTask : Quiet cleanupTask.
Proof.
  apply Quiet_try_catch;
    repeat (constructor || intro || apply Quiet_rethrow).
Qed.

(** A quiet task leaves the registry alone, up to its next [await] and
    in what it goes on to do. *)
Lemma advance_Quiet (svc : Services) (t : Task) :
  Quiet t ->
  forall w, registry (snd (advance svc t w)) = registry w
            /\ QuietPaused (fst (advance svc t w)).
Proof.
  induction 1 as [ | | args next _ IH | args next _ IH | next Hq _
                 | entry next _ IH | next Hq _ ]; intro w; cbn; auto.
  - destruct (IH (print Stdout args w)); auto.
  - destruct (IH (print Stderr args w)); auto.
  - destruct (IH (fst (append svc entry w)) (snd (append svc entry w)))
      as [Hreg Hp].
    rewrite Hreg, append_registry; auto.
Qed.

Lemma exec_Quiet (svc : Services) (t : Task) :
  Quiet t -> forall w, registry (snd (exec svc t w)) = registry w.
Proof.
  induction 1 as [ | | args next _ IH | args next _ IH | next _ IH
                 | entry next _ IH | next _ IH ]; intro w; cbn; auto.
  - rewrite IH; reflexivity.
  - rewrite IH; reflexivity.
  - rewrite IH, append_registry; reflexivity.
  - rewrite IH; reflexivity.
Qed.

Lemma Forall_remove_nth {A} (P : A -> Prop) (n : nat) (l : list A) :
  Forall P l -> Forall P (remove_nth n l).
Proof.
  intro H; revert n; induction H; intros [|n]; cbn; auto.
Qed.

Lemma park_Quiet (job : nat) (p : Paused) (w : World) (runs : list Run)
    (rej : list Error) (reg : list Scheduled) :
  registry w = reg ->
  Forall (fun sch => Quiet (sched_callback sch)) reg ->
  Forall (fun r => QuietPaused (run_paused r)) runs ->
  QuietPaused p ->
  registry (world (park job p w runs rej)) = reg
  /\ QuietNode (park job p w runs rej).
Proof.
  intros Hreg Hq Hruns Hp. unfold QuietNode.
  destruct p as [[u|e]|next|next]; cbn; rewrite Hreg; repeat split; auto;
    apply Forall_app; split; auto.
Qed.

Lemma step_Quiet (svc : Services) (ev : Event) (s : Node) :
  QuietNode s ->
  registry (world (step svc ev s)) = registry (world s)
  /\ QuietNode (step svc ev s).
Proof.
  intros [Hreg Hruns]. destruct ev as [job | n o | n o log]; cbn.
  - destruct (nth_error (registry (world s)) job) as [sch|] eqn:Hnth;
      [|split; [reflexivity | split; assumption]].
    assert (Hq : Quiet (sched_callback sch)).
    { rewrite Forall_forall in Hreg. apply Hreg.
      eapply nth_error_In; eassumption. }
    destruct (advance_Quiet svc Hq (world s)) as [Hr Hp].
    apply park_Quiet; auto.
  - destruct (nth_error (running s) n) as [[job p]|] eqn:Hnth;
      [|split; [reflexivity | split; assumption]].
    assert (Hp : QuietPaused p).
    { rewrite Forall_forall in Hruns.
      apply (Hruns {| run_job := job; run_paused := p |}).
      eapply nth_error_In; eassumption. }
    destruct p as [o'|next|next];
      try (split; [reflexivity | split; assumption]).
    destruct (advance_Quiet svc (Hp o) (world s)) as [Hr Hp'].
    apply park_Quiet; auto. apply Forall_remove_nth; assumption.
  - destruct (nth_error (running s) n) as [[job p]|] eqn:Hnth;
      [|split; [reflexivity | split; assumption]].
    assert (Hp : QuietPaused p).
    { rewrite Forall_forall in Hruns.
      apply (Hruns {| run_job := job; run_paused := p |}).
      eapply nth_error_In; eassumption. }
    destruct p as [o'|next|next];
      try (split; [reflexivity | split; assumption]).
    destruct (advance_Quiet svc (Hp o) (with_backupLog log (world s)))
      as [Hr Hp'].
    apply park_Quiet; auto. apply Forall_remove_nth; assumption.
Qed.

Lemma steps_Quiet (svc : Services) (evs : list Event) (s : Node) :
  QuietNode s ->
  registry (world (steps svc evs s)) = registry (world s).
Proof.
  revert s; induction evs as [|ev evs IH]; intros s Hs; cbn; [reflexivity|].
  destruct (step_Quiet svc ev Hs) as [Hreg Hs'].
  unfold steps in IH. rewrite IH; assumption.
Qed.

Lemma Quiet_fourSchedules :
  Forall (fun sch => Quiet (sched_callback sch)) fourSchedules.
Proof.
  unfold fourSchedules.
  repeat (apply Forall_cons); try apply Forall_nil; cbn;
    first [ apply (Quiet_tierTask Daily) | apply (Quiet_tierTask Weekly)
          | apply (Quiet_tierTask Monthly) | apply Quiet_cleanupTask ].
Qed.

Lemma parseCron_daily :
  parseCron "0 2 * * *" =
  Some {| cron_minute := Exactly 0; cron_hour := Exactly 2;
          cron_dayOfMonth := AnyValue; cron_month := AnyValue;
          cron_dayOfWeek := AnyValue |}.
Proof. vm_compute; reflexivity. Qed.

Lemma parseCron_weekly :
  parseCron "0 3 * * 0" =
  Some {| cron_minute := Exactly 0; cron_hour := Exactly 3;
          cron_dayOfMonth := AnyValue; cron_month := AnyValue;
          cron_dayOfWeek := Exactly 0 |}.
Proof. vm_compute; reflexivity. Qed.

Lemma parseCron_monthly :
  parseCron "0 4 1 * *" =
  Some {| cron_minute := Exactly 0; cron_hour := Exactly 4;
          cron_dayOfMonth := Exactly 1; cron_month := AnyValue;
          cron_dayOfWeek := AnyValue |}.
Proof. vm_compute; reflexivity. Qed.

Lemma parseCron_cleanup :
  parseCron "0 5 * * *" =
  Some {| cron_minute := Exactly 0; cron_hour := Exactly 5;
          cron_dayOfMonth := AnyValue; cron_month := AnyValue;
          cron_dayOfWeek := AnyValue |}.
Proof. vm_compute; reflexivity. Qed.

(** C9. Start-up registers exactly four schedules, all in the UTC
    timezone: the daily backup at 02:00, the weekly backup at 03:00 on
    Sunday, the monthly backup at 04:00 on the 1st of the month and the
    cleanup at 05:00 every day.  Whatever fires or settles afterwards,
    the registry stays those four. *)
Theorem four_fixed_schedules
    (svc : Services) (evs : list Event) (t : Instant)
    (Hvalid : forall e, parseCron e <> None -> validate svc e = Returned tt) :
  registry (world (booted svc)) = fourSchedules
  /\ registry (world (steps svc evs (booted svc))) = fourSchedules
  /\ length fourSchedules = 4%nat
  /\ map sched_expression fourSchedules =
     ["0 2 * * *"; "0 3 * * 0"; "0 4 1 * *"; "0 5 * * *"]
  /\ map (fun sch => timezone (sched_options sch)) fourSchedules =
     ["UTC"; "UTC"; "UTC"; "UTC"]
  /\ map (fun sch => firesAt sch t) fourSchedules =
     [ Some (Nat.eqb 0 (at_minute t) && Nat.eqb 2 (at_hour t));
       Some (Nat.eqb 0 (at_minute t) && Nat.eqb 3 (at_hour t)
             && Nat.eqb 0 (at_dayOfWeek t));
       Some (Nat.eqb 0 (at_minute t) && Nat.eqb 4 (at_hour t)
             && Nat.eqb 1 (at_dayOfMonth t));
       Some (Nat.eqb 0 (at_minute t) && Nat.eqb 5 (at_hour t)) ].
Proof.
  assert (Hboot : registry (world (booted svc)) = fourSchedules).
  { assert (H1 : validate svc "0 2 * * *" = Returned tt)
      by (apply Hvalid; vm_compute; discriminate).
    assert (H2 : validate svc "0 3 * * 0" = Returned tt)
      by (apply Hvalid; vm_compute; discriminate).
    assert (H3 : validate svc "0 4 1 * *" = Returned tt)
      by (apply Hvalid; vm_compute; discriminate).
    assert (H4 : validate svc "0 5 * * *" = Returned tt)
      by (apply Hvalid; vm_compute; discriminate).
    unfold booted; cbn. unfold schedule.
    rewrite H1; cbn. unfold schedule. rewrite H2; cbn.
    unfold schedule. rewrite H3; cbn. unfold schedule. rewrite H4; cbn.
    reflexivity. }
  split; [assumption|]. split.
  - rewrite steps_Quiet; [assumption|].
    split; [rewrite Hboot; apply Quiet_fourSchedules | constructor].
  - repeat split.
    unfold firesAt, fourSchedules. cbn [map sched_expression].
    rewrite parseCron_daily, parseCron_weekly, parseCron_monthly,
      parseCron_cleanup.
    unfold fires; cbn. rewrite !andb_true_r. reflexivity.
Qed.

Lemma four_fixed_schedules_witness :
  registry (world (booted healthy)) = fourSchedules
  /\ registry (world (steps healthy
                        [Tick 0; Tick 3;
                         BackupSettles 0 (Thrown {| message := "disk full" |});
                         Tick 1]
                        (booted healthy))) = fourSchedules
  /\ length fourSchedules = 4%nat
  /\ map sched_expression fourSchedules =
     ["0 2 * * *"; "0 3 * * 0"; "0 4 1 * *"; "0 5 * * *"]
  /\ map (fun sch => timezone (sched_options sch)) fourSchedules =
     ["UTC"; "UTC"; "UTC"; "UTC"]
  /\ map (fun sch => firesAt sch
                       {| at_minute := 0; at_hour := 3; at_dayOfMonth := 14;
                          at_month := 6; at_dayOfWeek := 0 |}) fourSchedules =
     [ Some false; Some true; Some false; Some false ].
Proof.
  apply (@four_fixed_schedules healthy
           [Tick 0; Tick 3;
            BackupSettles 0 (Thrown {| message := "disk full" |}); Tick 1]
           {| at_minute := 0; at_hour := 3; at_dayOfMonth := 14;
              at_month := 6; at_dayOfWeek := 0 |}).
  intros e _; reflexivity.
Defined.

(* ------------------------------------------------------------------ *)
(** ** A registration that fails *)







(* ------------------------------------------------------------------ *)
(** ** The Retention Engine: ordering *)

Lemma insertDesc_perm (x : Candidate) (l : list Candidate) :
  Permutation (insertDesc x l) (x :: l).
Proof.
  induction l as [|y l IH]; cbn; [reflexivity|].
  destruct (timestamp (snd y) <=? timestamp (snd x))%Z; [reflexivity|].
  rewrite IH. apply perm_swap.
Qed.

Lemma sortDesc_perm (l : list Candidate) : Permutation (sortDesc l) l.
Proof.
  induction l as [|x l IH]; cbn; [constructor|].
  rewrite insertDesc_perm. constructor; assumption.
Qed.

Lemma insertDesc_sorted (x : Candidate) (l : list Candidate) :
  StronglySorted newerFirst l -> StronglySorted newerFirst (insertDesc x l).
Proof.
  induction 1 as [|y l Hs IH Hall]; cbn.
  - repeat constructor.
  - destruct (Z.leb_spec (timestamp (snd y)) (timestamp (snd x))) as [Hle|Hlt].
    + constructor; [constructor; assumption|].
      constructor; [exact Hle|].
      eapply Forall_impl; [|exact Hall].
      unfold newerFirst; intros z Hz; lia.
    + constructor; [assumption|].
      rewrite Forall_forall. intros z Hz.
      apply (Permutation_in _ (insertDesc_perm x l)) in Hz.
      destruct Hz as [<-|Hz]; [unfold newerFirst; lia|].
      rewrite Forall_forall in Hall; auto.
Qed.

Lemma sortDesc_sorted (l : list Candidate) :
  StronglySorted newerFirst (sortDesc l).
Proof.
  induction l; cbn; [constructor | apply insertDesc_sorted; assumption].
Qed.

Lemma In_skipn {A} (n : nat) (l : list A) (x : A) :
  In x (skipn n l) -> In x l.
Proof.
  intro H. rewrite <- (firstn_skipn n l). apply in_or_app; right; exact H.
Qed.

Lemma In_firstn {A} (n : nat) (l : list A) (x : A) :
  In x (firstn n l) -> In x l.
Proof.
  intro H. rewrite <- (firstn_skipn n l). apply in_or_app; left; exact H.
Qed.

(** In a list sorted newest first, whatever lies beyond position [n] is
    no newer than anything before it. *)
Lemma sorted_firstn_skipn (n : nat) (l : list Candidate) (k c : Candidate) :
  StronglySorted newerFirst l ->
  In k (firstn n l) -> In c (skipn n l) -> newerFirst k c.
Proof.
  revert n; induction l as [|x l IH]; intros [|n] Hs Hk Hc; cbn in *;
    try contradiction.
  inversion Hs as [|? ? Hs' Hall]; subst.
  destruct Hk as [<-|Hk].
  - rewrite Forall_forall in Hall. apply Hall. eapply In_skipn; eassumption.
  - eapply IH; eassumption.
Qed.

Lemma NoDup_firstn_skipn {A} (n : nat) (l : list A) (x : A) :
  NoDup l -> In x (firstn n l) -> ~ In x (skipn n l).
Proof.
  revert n; induction l as [|y l IH]; intros [|n] Hnd Hin; cbn in *;
    try contradiction.
  inversion Hnd as [|? ? Hy Hnd']; subst.
  destruct Hin as [<-|Hin].
  - intro Hs; apply Hy. eapply In_skipn; eassumption.
  - apply IH; assumption.
Qed.

(* ------------------------------------------------------------------ *)
(** ** The Retention Engine: identifiers *)

Lemma combine_seq_In (a : nat) (l : list BackupEntry) (i : nat)
    (e : BackupEntry) :
  In (i, e) (combine (seq a (length l)) l) ->
  exists j, i = (a + j)%nat /\ nth_error l j = Some e.
Proof.
  revert a; induction l as [|x l IH]; intros a Hin; cbn in *;
    [contradiction|].
  destruct Hin as [Heq|Hin].
  - injection Heq as <- <-. exists 0%nat; split; [lia | reflexivity].
  - destruct (IH _ Hin) as (j & -> & Hj). exists (S j); split; [lia | exact Hj].
Qed.

Lemma indexed_In (log : list BackupEntry) (c : Candidate) :
  In c (indexed log) -> nth_error log (fst c) = Some (snd c).
Proof.
  destruct c as [i e]; intro Hin.
  destruct (@combine_seq_In 0 log i e Hin) as (j & -> & Hj). exact Hj.
Qed.

Lemma combine_seq_fst (a : nat) (l : list BackupEntry) :
  map fst (combine (seq a (length l)) l) = seq a (length l).
Proof.
  revert a; induction l as [|x l IH]; intro a; cbn; [reflexivity|].
  rewrite IH; reflexivity.
Qed.

Lemma NoDup_map_filter {A B} (g : A -> B) (f : A -> bool) (l : list A) :
  NoDup (map g l) -> NoDup (map g (filter f l)).
Proof.
  induction l as [|x l IH]; cbn; intro Hnd; [constructor|].
  inversion Hnd as [|? ? Hx Hnd']; subst.
  destruct (f x); cbn; [|auto].
  constructor; [|auto].
  intro Hin; apply Hx.
  apply in_map_iff in Hin. destruct Hin as (y & Hy & Hin).
  apply filter_In in Hin. apply in_map_iff. exists y; tauto.
Qed.

Lemma selected_NoDup_ids (tier : Tier) (log : list BackupEntry) :
  NoDup (map fst (selected tier log)).
Proof.
  unfold selected.
  eapply Permutation_NoDup.
  - apply Permutation_map. apply Permutation_sym. apply sortDesc_perm.
  - apply NoDup_map_filter. unfold indexed. rewrite combine_seq_fst.
    apply seq_NoDup.
Qed.

Lemma selected_In (tier : Tier) (log : list BackupEntry) (c : Candidate) :
  In c (selected tier log) ->
  isLive tier (snd c) = true /\ nth_error log (fst c) = Some (snd c).
Proof.
  unfold selected; intro Hin.
  apply (Permutation_in _ (sortDesc_perm _)) in Hin.
  apply filter_In in Hin. destruct Hin as [Hin Hlive].
  split; [assumption | apply indexed_In; assumption].
Qed.

Lemma filter_combine_seq_length (f : BackupEntry -> bool) (a : nat)
    (l : list BackupEntry) :
  length (filter (fun c : Candidate => f (snd c)) (combine (seq a (length l)) l))
  = length (filter f l).
Proof.
  revert a; induction l as [|x l IH]; intro a; cbn; [reflexivity|].
  destruct (f x); cbn; rewrite IH; reflexivity.
Qed.

Lemma selected_length (tier : Tier) (log : list BackupEntry) :
  length (selected tier log) = length (filter (isLive tier) log).
Proof.
  unfold selected.
  rewrite (Permutation_length (sortDesc_perm _)).
  apply filter_combine_seq_length.
Qed.

Lemma live_le_successful (tier : Tier) (log : list BackupEntry) :
  (length (filter (isLive tier) log) <= successfulCount tier log)%nat.
Proof.
  unfold successfulCount, isLive.
  induction log as [|e log IH]; cbn; [lia|].
  destruct (isSuccess tier e); cbn; [|assumption].
  destruct (negb (reclaimed e)); cbn; lia.
Qed.

Lemma tierName_inj (t t' : Tier) : tierName t = tierName t' -> t = t'.
Proof. destruct t, t'; cbn; intro H; try reflexivity; discriminate. Qed.

Lemma isLive_isTier (tier : Tier) (e : BackupEntry) :
  isLive tier e = true -> isTier tier e = true.
Proof.
  unfold isLive, isSuccess. intro H.
  apply andb_true_iff in H. destruct H as [H _].
  apply andb_true_iff in H. tauto.
Qed.

Lemma isTier_other (t t' : Tier) (e : BackupEntry) :
  isTier t e = true -> t <> t' -> isTier t' e = false.
Proof.
  unfold isTier. intros H Hne.
  apply String.eqb_eq in H. rewrite H.
  apply String.eqb_neq. intro Heq. apply Hne. apply tierName_inj; assumption.
Qed.

Lemma candidates_In (tier : Tier) (log : list BackupEntry) (c : Candidate) :
  In c (candidates tier log) ->
  isLive tier (snd c) = true /\ nth_error log (fst c) = Some (snd c).
Proof.
  unfold candidates. destruct (keepCount tier) as [n|]; [|contradiction].
  intro Hin. apply selected_In. eapply In_skipn; eassumption.
Qed.

Lemma kept_In (tier : Tier) (log : list BackupEntry) (c : Candidate) :
  In c (kept tier log) ->
  isLive tier (snd c) = true /\ nth_error log (fst c) = Some (snd c).
Proof.
  unfold kept. destruct (keepCount tier) as [n|]; intro Hin;
    apply selected_In; [eapply In_firstn; eassumption | assumption].
Qed.

(** No kept entry shares its identifier with a deletion candidate, of
    its own tier or of another. *)
Lemma kept_not_candidate (t t' : Tier) (log : list BackupEntry)
    (k c : Candidate) :
  In k (kept t log) -> In c (candidates t' log) -> fst k <> fst c.
Proof.
  intros Hk Hc Hid.
  destruct (kept_In _ _ _ Hk) as [Hlk Hnk].
  destruct (candidates_In _ _ _ Hc) as [Hlc Hnc].
  assert (Heq : k = c).
  { destruct k as [i e], c as [j e']; cbn in *. subst j.
    rewrite Hnk in Hnc. injection Hnc as <-. reflexivity. }
  subst c.
  assert (t = t').
  { apply tierName_inj.
    apply isLive_isTier in Hlk, Hlc. unfold isTier in *.
    apply String.eqb_eq in Hlk, Hlc. congruence. }
  subst t'. unfold kept, candidates in *.
  destruct (keepCount t) as [n|]; [|contradiction].
  revert Hc. apply NoDup_firstn_skipn; [|assumption].
  eapply NoDup_map_inv. apply selected_NoDup_ids.
Qed.

(* ------------------------------------------------------------------ *)
(** ** The Retention Engine: one sweep *)

Lemma deleteAll_deleted (del : string -> bool) (cands : list Candidate)
    (acc : Sweep) :
  sweep_deleted (deleteAll del cands acc) =
  sweep_deleted acc ++ filter (fun c => requestDelete del (snd c)) cands.
Proof.
  revert acc; induction cands as [|c rest IH]; intro acc; cbn;
    [rewrite app_nil_r; reflexivity|].
  destruct (requestDelete del (snd c)); rewrite IH; cbn;
    [rewrite <- app_assoc|]; reflexivity.
Qed.

Lemma deleteAll_failed (del : string -> bool) (cands : list Candidate)
    (acc : Sweep) :
  sweep_failed (deleteAll del cands acc) =
  sweep_failed acc
  ++ filter (fun c => negb (requestDelete del (snd c))) cands.
Proof.
  revert acc; induction cands as [|c rest IH]; intro acc; cbn;
    [rewrite app_nil_r; reflexivity|].
  destruct (requestDelete del (snd c)); rewrite IH; cbn;
    [|rewrite <- app_assoc]; reflexivity.
Qed.

Lemma markReclaimed_length (id : nat) (log : list BackupEntry) :
  length (markReclaimed id log) = length log.
Proof.
  revert id; induction log as [|e log IH]; intros [|id]; cbn; auto.
Qed.

Lemma markReclaimed_other (id j : nat) (log : list BackupEntry) :
  id <> j -> nth_error (markReclaimed id log) j = nth_error log j.
Proof.
  revert id j; induction log as [|e log IH]; intros [|id] [|j] Hne; cbn;
    try reflexivity; try contradiction.
  apply IH; congruence.
Qed.

Lemma deleteAll_log_length (del : string -> bool) (cands : list Candidate)
    (acc : Sweep) :
  length (sweep_log (deleteAll del cands acc)) = length (sweep_log acc).
Proof.
  revert acc; induction cands as [|c rest IH]; intro acc; cbn; [reflexivity|].
  destruct (requestDelete del (snd c)); rewrite IH; cbn;
    [apply markReclaimed_length | reflexivity].
Qed.

(** A sweep touches the entries it deletes and no other. *)
Lemma deleteAll_log_other (del : string -> bool) (cands : list Candidate)
    (acc : Sweep) (j : nat) :
  ~ In j (map fst cands) ->
  nth_error (sweep_log (deleteAll del cands acc)) j
  = nth_error (sweep_log acc) j.
Proof.
  revert acc; induction cands as [|c rest IH]; intros acc Hj; cbn;
    [reflexivity|].
  cbn in Hj.
  destruct (requestDelete del (snd c)); rewrite IH by tauto; cbn;
    [apply markReclaimed_other; tauto | reflexivity].
Qed.

Lemma filter_all {A} (f : A -> bool) (l : list A) :
  (forall x, In x l -> f x = true) -> filter f l = l.
Proof.
  induction l as [|x l IH]; cbn; intro H; [reflexivity|].
  rewrite (H x) by auto. rewrite IH by auto. reflexivity.
Qed.

Lemma filter_none {A} (f : A -> bool) (l : list A) :
  (forall x, In x l -> f x = false) -> filter f l = [].
Proof.
  induction l as [|x l IH]; cbn; intro H; [reflexivity|].
  rewrite (H x) by auto. apply IH; auto.
Qed.

Lemma filter_tier_same (del : string -> bool) (log : list BackupEntry)
    (t : Tier) :
  filter (fun c : Candidate => isTier t (snd c))
         (filter (fun c => requestDelete del (snd c)) (candidates t log))
  = filter (fun c => requestDelete del (snd c)) (candidates t log).
Proof.
  apply filter_all. intros c Hc. apply filter_In in Hc.
  apply isLive_isTier. apply (candidates_In t log c); tauto.
Qed.

Lemma filter_tier_other (del : string -> bool) (log : list BackupEntry)
    (t t' : Tier) :
  t' <> t ->
  filter (fun c : Candidate => isTier t (snd c))
         (filter (fun c => requestDelete del (snd c)) (candidates t' log))
  = [].
Proof.
  intro Hne. apply filter_none. intros c Hc. apply filter_In in Hc.
  apply (@isTier_other t' t); [|assumption].
  apply isLive_isTier. apply (candidates_In t' log c); tauto.
Qed.

(** What a sweep deletes of a tier is what it could delete among that
    tier's candidates. *)
Lemma deletedOf_candidates (del : string -> bool) (log : list BackupEntry)
    (t : Tier) :
  deletedOf t (retentionSweep del log)
  = filter (fun c => requestDelete del (snd c)) (candidates t log).
Proof.
  unfold deletedOf, retentionSweep. rewrite deleteAll_deleted.
  cbn [sweep_deleted app]. rewrite !filter_app.
  destruct t.
  - rewrite filter_tier_same, !filter_tier_other by discriminate.
    rewrite !app_nil_r; reflexivity.
  - rewrite filter_tier_same, !filter_tier_other by discriminate.
    rewrite app_nil_r; reflexivity.
  - rewrite filter_tier_same, !filter_tier_other by discriminate.
    reflexivity.
Qed.

Lemma candidates_length (t : Tier) (n : nat) (log : list BackupEntry) :
  keepCount t = Some n ->
  length (candidates t log) = (length (filter (isLive t) log) - n)%nat.
Proof.
  unfold candidates; intros ->.
  rewrite length_skipn, selected_length; reflexivity.
Qed.

Lemma deletedOf_bound (del : string -> bool) (log : list BackupEntry)
    (t : Tier) (n : nat) :
  keepCount t = Some n ->
  (length (deletedOf t (retentionSweep del log))
   <= successfulCount t log - n)%nat.
Proof.
  intro Hkeep. rewrite deletedOf_candidates.
  pose proof (filter_length_le (fun c : Candidate => requestDelete del (snd c))
                               (candidates t log)) as Hle.
  rewrite (@candidates_length t n log Hkeep) in Hle.
  pose proof (live_le_successful t log) as Hlive.
  eapply Nat.le_trans; [exact Hle | lia].
Qed.

Lemma partition_perm {A} (f : A -> bool) (l : list A) :
  Permutation (filter f l ++ filter (fun x => negb (f x)) l) l.
Proof.
  induction l as [|x l IH]; cbn; [constructor|].
  destruct (f x); cbn.
  - constructor; assumption.
  - apply Permutation_sym, Permutation_cons_app, Permutation_sym; assumption.
Qed.

Lemma In_all_candidates (log : list BackupEntry) (c : Candidate) :
  In c (candidates Daily log ++ candidates Weekly log ++ candidates Monthly log)
  -> exists t, In c (candidates t log).
Proof.
  intro H. apply in_app_or in H. destruct H as [H|H]; [exists Daily; exact H|].
  apply in_app_or in H. destruct H as [H|H];
    [exists Weekly | exists Monthly]; exact H.
Qed.

(** C4. In every sweep: the Daily artifacts deleted are at most
    max(0, successfulCount - 7) and the Weekly ones at most
    max(0, successfulCount - 4); no Monthly artifact is deleted, Monthly
    has no candidate at all; the 7 (resp. 4) newest live successful
    entries of the tier, or all of them when there are fewer, are kept:
    no deletion is requested for them, they stand in the log after the
    sweep as before, and none of them is older than a candidate of their
    tier; a tier with fewer successful entries than its keep count has
    no candidate; and the sweep returns, the log as long as it was. *)
Theorem retention_respects_keep_counts
    (deleteArtifact : string -> bool) (log : list BackupEntry) :
  let s := retentionSweep deleteArtifact log in
  (Z.of_nat (length (deletedOf Daily s))
   <= Z.max 0 (Z.of_nat (successfulCount Daily log) - 7))%Z
  /\ (Z.of_nat (length (deletedOf Weekly s))
      <= Z.max 0 (Z.of_nat (successfulCount Weekly log) - 4))%Z
  /\ deletedOf Monthly s = []
  /\ candidates Monthly log = []
  /\ length (kept Daily log) = Nat.min 7 (length (filter (isLive Daily) log))
  /\ length (kept Weekly log) = Nat.min 4 (length (filter (isLive Weekly) log))
  /\ (forall tier k,
        In k (kept tier log) ->
        ~ In k (sweep_deleted s ++ sweep_failed s)
        /\ nth_error (sweep_log s) (fst k) = Some (snd k))
  /\ (forall tier k c,
        In k (kept tier log) -> In c (candidates tier log) ->
        (timestamp (snd c) <= timestamp (snd k))%Z)
  /\ (forall tier n,
        keepCount tier = Some n -> (successfulCount tier log < n)%nat ->
        candidates tier log = [])
  /\ length (sweep_log s) = length log.
Proof.
  cbv zeta.
  split; [|split; [|split; [|split; [|split; [|split; [|split;
    [|split; [|split]]]]]]]].
  - pose proof (@deletedOf_bound deleteArtifact log Daily 7 eq_refl). lia.
  - pose proof (@deletedOf_bound deleteArtifact log Weekly 4 eq_refl). lia.
  - rewrite deletedOf_candidates. reflexivity.
  - reflexivity.
  - unfold kept; cbn [keepCount]. rewrite length_firstn, selected_length.
    reflexivity.
  - unfold kept; cbn [keepCount]. rewrite length_firstn, selected_length.
    reflexivity.
  - intros tier k Hk. split.
    + intro Hin. unfold retentionSweep in Hin.
      rewrite deleteAll_deleted, deleteAll_failed in Hin. cbn [sweep_deleted sweep_failed app] in Hin.
      assert (Hall : In k (candidates Daily log ++ candidates Weekly log
                           ++ candidates Monthly log)).
      { apply in_app_or in Hin. destruct Hin as [Hin|Hin];
          apply filter_In in Hin; tauto. }
      destruct (In_all_candidates _ _ Hall) as [t' Hc].
      exact (kept_not_candidate _ _ _ _ _ Hk Hc eq_refl).
    + unfold retentionSweep. rewrite deleteAll_log_other.
      * cbn [sweep_log]. apply (kept_In tier log k Hk).
      * intro Hin. apply in_map_iff in Hin. destruct Hin as (c & Hid & Hall).
        destruct (In_all_candidates _ _ Hall) as [t' Hc].
        apply (kept_not_candidate _ _ _ _ _ Hk Hc). symmetry; exact Hid.
  - intros tier k c Hk Hc. unfold kept, candidates in *.
    destruct (keepCount tier) as [n|]; [|contradiction].
    apply (@sorted_firstn_skipn n (selected tier log) k c); auto.
    apply sortDesc_sorted.
  - intros tier n Hkeep Hfew. apply length_zero_iff_nil.
    rewrite (@candidates_length tier n log Hkeep).
    pose proof (live_le_successful tier log). lia.
  - unfold retentionSweep. rewrite deleteAll_log_length. reflexivity.
Qed.

(** The spec's scenario: of ten daily backups with distinct timestamps a
    sweep whose deletions succeed reclaims the three oldest and leaves
    the seven newest. *)
Example ten_dailies_keep_seven :
  let s := retentionSweep (fun _ => true) tenDailies in
  map reclaimed (sweep_log s) =
  [true; true; true; false; false; false; false; false; false; false]
  /\ retentionResult s = {| removed := 3; failures := 0 |}
  /\ map fst (kept Daily tenDailies) = [9; 8; 7; 6; 5; 4; 3]%nat.
Proof. cbv zeta; repeat split. Qed.

(** A second sweep right after the first finds nothing to delete. *)
Example second_sweep_is_idle :
  retentionResult
    (retentionSweep (fun _ => true)
       (sweep_log (retentionSweep (fun _ => true) tenDailies)))
  = {| removed := 0; failures := 0 |}.
Proof. reflexivity. Qed.

(** C5, as the code has it.  The sweep attempts every candidate exactly
    once: each ends up either deleted or recorded as a failure, a failed
    deletion stops nothing, and the counts returned add up to the number
    of candidates.  The cleanup callback then prints one summary line,
    which carries the count removed and nothing else. *)
Theorem sweep_counts_failures_summary_reports_removed
    (deleteArtifact : string -> bool) (w : World) :
  let log := backupLog w in
  let all :=
    candidates Daily log ++ candidates Weekly log ++ candidates Monthly log in
  let s := retentionSweep deleteArtifact log in
  let after := exec (withRetention deleteArtifact) cleanupTask w in
  Permutation (sweep_deleted s ++ sweep_failed s) all
  /\ sweep_failed s =
     filter (fun c => negb (requestDelete deleteArtifact (snd c))) all
  /\ (removed (retentionResult s) + failures (retentionResult s)
      = length all)%nat
  /\ fst after = Returned tt
  /\ console (snd after) =
     console w ++
     [ {| stream := Stdout;
          line := [VStr "[BACKUP] Running retention policy cleanup..."] |};
       {| stream := Stdout;
          line := [VStr "[BACKUP] Retention policy applied. Removed:";
                   VNum (Z.of_nat (removed (retentionResult s)))] |} ].
Proof.
  cbv zeta. unfold retentionSweep, retentionResult; cbn [removed failures].
  rewrite deleteAll_deleted, deleteAll_failed. cbn [sweep_deleted sweep_failed app].
  split; [apply partition_perm|]. split; [reflexivity|].
  split; [apply filter_length|]. split; [reflexivity|].
  cbn. unfold retentionSweep.
  rewrite deleteAll_deleted. cbn [sweep_deleted app].
  rewrite <- app_assoc. reflexivity.
Qed.

(** C5, as stated, fails: the claim has the cleanup summary line carry
    both counts.  A sweep with one failed deletion and a sweep with none,
    both removing two artifacts, print the same lines. *)
Lemma cleanup_summary_omits_failures :
  let failing := withRetention (fun d => negb (String.eqb d "b")) in
  let working := withRetention (fun _ => true) in
  let w10 := with_backupLog tenDailies emptyWorld in
  let w9 := with_backupLog (tl tenDailies) emptyWorld in
  fst (applyRetentionPolicy failing w10)
  = Returned {| removed := 2; failures := 1 |}
  /\ fst (applyRetentionPolicy working w9)
     = Returned {| removed := 2; failures := 0 |}
  /\ console (snd (exec failing cleanupTask w10)) =
     [ {| stream := Stdout;
          line := [VStr "[BACKUP] Running retention policy cleanup..."] |};
       {| stream := Stdout;
          line := [VStr "[BACKUP] Retention policy applied. Removed:";
                   VNum 2] |} ]
  /\ console (snd (exec working cleanupTask w9))
     = console (snd (exec failing cleanupTask w10)).
Proof. cbv zeta; repeat split. Qed.

(* ================================================================== *)
(** * Further properties of [server.js] and of the routes *)

(* ------------------------------------------------------------------ *)
(** ** CORS *)

Lemma corsOrigin_falsy (env origin : option string) :
  truthyString origin = false -> corsOrigin env origin = Returned true.
Proof. unfold corsOrigin; intros ->; reflexivity. Qed.

Lemma corsOrigin_listed (env origin : option string) :
  In origin (allowedOrigins env) -> corsOrigin env origin = Returned true.
Proof.
  intro Hin. unfold corsOrigin.
  assert (Hex : existsb (sameValue origin) (allowedOrigins env) = true).
  { apply existsb_exists. exists origin; split; [assumption|].
    destruct origin; cbn; [apply String.eqb_refl | reflexivity]. }
  rewrite Hex, orb_true_r. reflexivity.
Qed.

Lemma sameValue_eq (a b : option string) : sameValue a b = true -> a = b.
Proof.
  destruct a, b; cbn; intro H; try discriminate; [|reflexivity].
  apply String.eqb_eq in H; congruence.
Qed.

(** X1. The CORS check lets a request through exactly when it carries no
    origin (or an empty one), or its origin is one of the two localhost
    origins, or its origin is the configured [FRONTEND_URL]; every other
    origin is refused with the error 'Not allowed by CORS'. *)
Theorem cors_allows_exactly (FRONTEND_URL origin : option string) :
  (corsOrigin FRONTEND_URL origin = Returned true <->
   origin = None \/ origin = Some "" \/ origin = Some "http://localhost:3000"
   \/ origin = Some "http://localhost:3001" \/ origin = FRONTEND_URL)
  /\ (corsOrigin FRONTEND_URL origin = Returned true
      \/ corsOrigin FRONTEND_URL origin
         = Thrown {| message := "Not allowed by CORS" |}).
Proof.
  split.
  - split.
    + unfold corsOrigin.
      destruct (truthyString origin) eqn:Ht; cbn [negb orb].
      * destruct (existsb (sameValue origin) (allowedOrigins FRONTEND_URL))
          eqn:Hex; [|discriminate].
        intros _. apply existsb_exists in Hex. destruct Hex as (y & Hin & Hy).
        apply sameValue_eq in Hy. subst y.
        apply filter_In in Hin. destruct Hin as [Hin _].
        destruct Hin as [H|[H|[H|[]]]]; auto.
      * intros _. destruct origin as [[|c s]|]; auto; discriminate.
    + intros [-> | [-> | [-> | [-> | ->]]]];
        try (apply corsOrigin_falsy; reflexivity);
        try (apply corsOrigin_listed; cbn; auto; fail).
      destruct (truthyString FRONTEND_URL) eqn:Ht;
        [|apply corsOrigin_falsy; assumption].
      apply corsOrigin_listed. apply filter_In; split; [cbn; auto | assumption].
  - unfold corsOrigin. destruct (_ || _); auto.
Qed.

(** X2. Whatever [FRONTEND_URL] is, the origin the Socket.IO server is
    configured for is accepted by the CORS check of the HTTP routes. *)
Theorem socket_origin_passes_cors (FRONTEND_URL : option string) :
  corsOrigin FRONTEND_URL (Some (socketOrigin FRONTEND_URL)) = Returned true.
Proof.
  destruct FRONTEND_URL as [[|c s]|]; cbn [socketOrigin].
  - apply corsOrigin_listed; cbn; auto.
  - apply corsOrigin_listed. apply filter_In; split; [cbn; auto | reflexivity].
  - apply corsOrigin_listed; cbn; auto.
Qed.

(* ------------------------------------------------------------------ *)
(** ** Security logging *)

Lemma substring_0_length (n : nat) (s : string) :
  String.length (substring 0 n s) = Nat.min n (String.length s).
Proof.
  revert s; induction n as [|n IH]; intros [|c s]; cbn; auto.
Qed.

Lemma substring_0_prefix (n : nat) (s : string) :
  prefix (substring 0 n s) s = true.
Proof.
  revert s; induction n as [|n IH]; intros [|c s]; cbn; auto.
  destruct (ascii_dec c c); [apply IH | contradiction].
Qed.

Lemma substring_0_all (n : nat) (s : string) :
  (String.length s <= n)%nat -> substring 0 n s = s.
Proof.
  revert s; induction n as [|n IH]; intros [|c s] Hlen; cbn in *; auto;
    [lia|].
  rewrite IH by lia. reflexivity.
Qed.

(** X3. The replaced [res.send] never changes a response: what reaches
    the original [send] is the data it was given, and it is reached
    unless the security logger throws.  The logger is called only for a
    status of 400 or more, with the kind 'suspicious_activity', that
    status, and an excerpt of at most 200 characters that is a prefix of
    the data (all of it when it is that short), or the fixed text
    'Non-string response' for data that is no string. *)
Theorem wrapped_send_forwards_and_logs {Request : Type}
    (logSecurityEvent : Request -> string -> EventDetails -> Outcome unit)
    (originalSend : JsVal -> Outcome unit)
    (req : Request) (statusCode : Z) (data : JsVal) :
  let result := wrappedSend logSecurityEvent originalSend req statusCode data in
  (forall d, In (OriginalSend d) (fst result) -> d = data)
  /\ (In (OriginalSend data) (fst result) /\ snd result = originalSend data
      \/ exists e, snd result = Thrown e
                   /\ ~ In (OriginalSend data) (fst result)
                   /\ (400 <= statusCode)%Z)
  /\ ((statusCode < 400)%Z -> fst result = [OriginalSend data])
  /\ (forall r kind details,
        In (LogSecurityEvent r kind details) (fst result) ->
        (400 <= statusCode)%Z
        /\ r = req /\ kind = "suspicious_activity"
        /\ details_statusCode details = statusCode
        /\ (String.length (details_response details) <= 200)%nat
        /\ match data with
           | VStr s =>
               prefix (details_response details) s = true
               /\ ((String.length s <= 200)%nat ->
                   details_response details = s)
           | _ => details_response details = "Non-string response"
           end).
Proof.
  cbv zeta. unfold wrappedSend.
  destruct (Z.leb_spec 400 statusCode) as [Hge|Hlt].
  - destruct (logSecurityEvent req "suspicious_activity" _) as [u|e] eqn:Hlog;
      cbn [fst snd].
    + split; [|split; [|split]].
      * intros d [H|[H|[]]]; [discriminate | congruence].
      * left; split; [right; left; reflexivity | reflexivity].
      * intro; lia.
      * intros r kind details [H|[H|[]]]; [|discriminate].
        injection H as <- <- <-. cbn.
        repeat split; auto.
        -- destruct data; cbn;
             try (rewrite substring_0_length; apply Nat.le_min_l); lia.
        -- destruct data; cbn; auto.
           split; [apply substring_0_prefix | apply substring_0_all].
    + split; [|split; [|split]].
      * intros d [H|[]]; discriminate.
      * right; exists e; repeat split; auto.
        intros [H|[]]; discriminate.
      * intro; lia.
      * intros r kind details [H|[]].
        injection H as <- <- <-. cbn.
        repeat split; auto.
        -- destruct data; cbn;
             try (rewrite substring_0_length; apply Nat.le_min_l); lia.
        -- destruct data; cbn; auto.
           split; [apply substring_0_prefix | apply substring_0_all].
  - cbn [fst snd]. split; [|split; [|split]].
    + intros d [H|[]]; congruence.
    + left; split; [left; reflexivity | reflexivity].
    + reflexivity.
    + intros r kind details [H|[]]; discriminate.
Qed.

(* ------------------------------------------------------------------ *)
(** ** The Express error handler *)

(** X4. The error handler always answers with [success: false], a status
    that is the error's own non-zero status or else 500, and a message
    that is never empty; in production the body carries no stack, outside
    production it carries the error's stack; and it prints one line on
    the error stream. *)
Theorem error_handler_response (NODE_ENV : option string) (err : RouteError)
    (w : World) :
  let response := fst (errorHandler NODE_ENV err w) in
  res_success response = false
  /\ res_status response <> 0%Z
  /\ (err_status err = Some (res_status response)
      \/ res_status response = 500%Z
         /\ (err_status err = None \/ err_status err = Some 0%Z))
  /\ res_message response <> ""
  /\ (err_message err = Some (res_message response)
      \/ res_message response = "Internal Server Error"
         /\ (err_message err = None \/ err_message err = Some ""))
  /\ (NODE_ENV = Some "production" -> res_error response = None)
  /\ (NODE_ENV <> Some "production" -> res_error response = err_stack err)
  /\ length (console (snd (errorHandler NODE_ENV err w)))
     = S (length (console w)).
Proof.
  cbv zeta. unfold errorHandler; cbn [fst snd res_success res_status
    res_message res_error].
  split; [reflexivity|].
  split; [destruct (err_status err) as [[|p|p]|]; discriminate|].
  split; [destruct (err_status err) as [[|p|p]|]; auto|].
  split; [destruct (err_message err) as [[|c m]|]; discriminate|].
  split; [destruct (err_message err) as [[|c m]|]; auto|].
  split; [intros ->; reflexivity|].
  split.
  - intro Hne. destruct (sameValue NODE_ENV (Some "production")) eqn:Hs;
      [|reflexivity].
    apply sameValue_eq in Hs. contradiction.
  - cbn. rewrite length_app. cbn. lia.
Qed.

(* ------------------------------------------------------------------ *)
(** ** Start-up *)

(** A process with nothing registered and nothing in flight stays as it
    is, whatever fires or settles. *)
Lemma steps_idle (svc : Services) (evs : list Event) (s : Node) :
  registry (world s) = [] -> running s = [] -> steps svc evs s = s.
Proof.
  intros Hreg Hrun. induction evs as [|ev evs IH]; [reflexivity|].
  unfold steps in *; cbn [fold_left].
  assert (Hstep : step svc ev s = s).
  { destruct ev as [job|n o|n o log]; cbn; rewrite ?Hreg, ?Hrun;
      [destruct job | destruct n | destruct n]; reflexivity. }
  rewrite Hstep. exact IH.
Qed.

(** Registration errors do not leave [initializeBackupScheduling]. *)
Lemma initialize_returns (svc : Services) (w : World) :
  fst (exec svc initializeBackupScheduling w) = Returned tt.
Proof.
  cbn. unfold schedule.
  destruct (validate svc "0 2 * * *"); cbn; [|reflexivity]. unfold schedule.
  destruct (validate svc "0 3 * * 0"); cbn; [|reflexivity]. unfold schedule.
  destruct (validate svc "0 4 1 * *"); cbn; [|reflexivity]. unfold schedule.
  destruct (validate svc "0 5 * * *"); cbn; reflexivity.
Qed.

(** X5. When the database connection fails, start-up prints the one line
    'MongoDB connection error:' and registers no schedule: from then on
    no trigger and no settlement changes anything, no backup is ever
    made or logged. *)
Theorem no_connection_no_backups
    (svc : Services) (err : Error) (cronJobsInit : Outcome unit)
    (evs : list Event) :
  let s := started svc (Thrown err) cronJobsInit in
  console (world s) =
  [ {| stream := Stderr;
       line := [VStr "MongoDB connection error:"; VErr err] |} ]
  /\ registry (world s) = []
  /\ steps svc evs s = s.
Proof.
  cbv zeta. repeat split. apply steps_idle; reflexivity.
Qed.

(** X6. When the database connects but [CronJobs.init()] throws, the
    error is printed under the label 'MongoDB connection error:', right
    after the line 'MongoDB connected', and backup scheduling is never
    initialised: no schedule is registered and nothing that fires or
    settles later changes anything. *)
Theorem cron_jobs_failure_disables_backups
    (svc : Services) (err : Error) (evs : list Event) :
  let s := started svc (Returned tt) (Thrown err) in
  console (world s) =
  [ {| stream := Stdout; line := [VStr "MongoDB connected"] |};
    {| stream := Stderr;
       line := [VStr "MongoDB connection error:"; VErr err] |} ]
  /\ registry (world s) = []
  /\ steps svc evs s = s.
Proof.
  cbv zeta. repeat split. apply steps_idle; reflexivity.
Qed.

(** X7. When the database connects and [CronJobs.init()] returns, an
    error of the backup scheduling never reaches the [catch] of the
    connection and never becomes an unhandled rejection: start-up ends
    in the world [initializeBackupScheduling] leaves, no rejected
    promise is left floating, and the console shows the two progress
    lines followed by lines that are not 'MongoDB connection error:'. *)
Theorem scheduling_errors_stay_inside_start_up (svc : Services) (w : World) :
  let after := startup svc (Returned tt) (Returned tt) w in
  after =
  snd (exec svc initializeBackupScheduling
         (print Stdout [VStr "Email cron jobs initialized"]
            (print Stdout [VStr "MongoDB connected"] w)))
  /\ floating after = floating w
  /\ exists lines,
       console after =
       console w
       ++ [ {| stream := Stdout; line := [VStr "MongoDB connected"] |};
            {| stream := Stdout;
               line := [VStr "Email cron jobs initialized"] |};
            {| stream := Stdout;
               line := [VStr "Initializing automated backup scheduling..."] |} ]
       ++ lines
       /\ Forall (fun l => forall err,
                    l <> {| stream := Stderr;
                            line := [VStr "MongoDB connection error:";
                                     VErr err] |}) lines.
Proof.
  cbv zeta. unfold startup.
  pose proof (initialize_returns svc
                (print Stdout [VStr "Email cron jobs initialized"]
                   (print Stdout [VStr "MongoDB connected"] w))) as Hret.
  destruct (exec svc initializeBackupScheduling _) as [[u|e] w3] eqn:Hexec;
    [|discriminate].
  cbn [snd]. split; [reflexivity|].
  revert Hexec. cbn. unfold schedule.
  destruct (validate svc "0 2 * * *"); cbn.
  2:{ intro H; injection H as _ <-; cbn. split; [reflexivity|].
      eexists; split;
        [rewrite <- !app_assoc; cbn; reflexivity
        | repeat constructor; intros err; discriminate]. }
  unfold schedule. destruct (validate svc "0 3 * * 0"); cbn.
  2:{ intro H; injection H as _ <-; cbn. split; [reflexivity|].
      eexists; split;
        [rewrite <- !app_assoc; cbn; reflexivity
        | repeat constructor; intros err; discriminate]. }
  unfold schedule. destruct (validate svc "0 4 1 * *"); cbn.
  2:{ intro H; injection H as _ <-; cbn. split; [reflexivity|].
      eexists; split;
        [rewrite <- !app_assoc; cbn; reflexivity
        | repeat constructor; intros err; discriminate]. }
  unfold schedule. destruct (validate svc "0 5 * * *"); cbn.
  2:{ intro H; injection H as _ <-; cbn. split; [reflexivity|].
      eexists; split;
        [rewrite <- !app_assoc; cbn; reflexivity
        | repeat constructor; intros err; discriminate]. }
  intro H; injection H as _ <-; cbn. split; [reflexivity|].
  eexists; split;
    [rewrite <- !app_assoc; cbn; reflexivity
    | repeat constructor; intros err; discriminate].
Qed.

(* ------------------------------------------------------------------ *)
(** ** Backup runs: what the callbacks do not wait for *)

(** X8. The callbacks do not await [logBackup].  When the write of the
    success record fails as a rejected promise, the run still ends
    fulfilled with 'completed successfully' as its last line and nothing
    in the backup log; the rejection goes to the [unhandledRejection]
    handler, which prints it, and no rejection stays behind. *)
Theorem unawaited_log_write_reaches_the_process_handler
    (svc : Services) (tier : Tier) (w : World) (r : BackupResult) (e : Error)
    (Hexport : createDatabaseBackup svc (print Stdout (startLine tier) w)
               = Returned r)
    (Hwrite : storageWrite svc (successInfo tier r)
                (print Stdout (completedLine tier)
                   (print Stdout (startLine tier) w))
              = WriteRejects e)
    (Hclean : floating w = []) :
  let after := exec svc (tierTask tier) w in
  fst after = Returned tt
  /\ backupLog (snd after) = backupLog w
  /\ console (snd after) =
     console w ++ [ {| stream := Stdout; line := startLine tier |};
                    {| stream := Stdout; line := completedLine tier |} ]
  /\ floating (snd after) = [e]
  /\ console (deliverRejections svc (snd after)) =
     console (snd after)
     ++ [ {| stream := Stderr;
             line := [VStr "Unhandled Rejection at:"; VPromise;
                      VStr "reason:"; VErr e] |} ]
  /\ floating (deliverRejections svc (snd after)) = []
  /\ backupLog (deliverRejections svc (snd after)) = backupLog w.
Proof.
  cbv zeta. rewrite exec_tierTask; cbv zeta. rewrite Hexport, Hwrite.
  unfold append. rewrite Hwrite. cbn [fst snd].
  unfold deliverRejections. cbn. rewrite Hclean. cbn.
  rewrite <- app_assoc. repeat split.
Qed.

Lemma unawaited_log_write_reaches_the_process_handler_witness :
  fst (exec logRejecting (tierTask Monthly) emptyWorld) = Returned tt
  /\ backupLog (snd (exec logRejecting (tierTask Monthly) emptyWorld)) = []
  /\ console (snd (exec logRejecting (tierTask Monthly) emptyWorld)) =
     [] ++ [ {| stream := Stdout; line := startLine Monthly |};
             {| stream := Stdout; line := completedLine Monthly |} ]
  /\ floating (snd (exec logRejecting (tierTask Monthly) emptyWorld))
     = [ {| message := "log storage unavailable" |} ]
  /\ console (deliverRejections logRejecting
                (snd (exec logRejecting (tierTask Monthly) emptyWorld))) =
     console (snd (exec logRejecting (tierTask Monthly) emptyWorld))
     ++ [ {| stream := Stderr;
             line := [VStr "Unhandled Rejection at:"; VPromise;
                      VStr "reason:";
                      VErr {| message := "log storage unavailable" |}] |} ]
  /\ floating (deliverRejections logRejecting
                 (snd (exec logRejecting (tierTask Monthly) emptyWorld))) = []
  /\ backupLog (deliverRejections logRejecting
                  (snd (exec logRejecting (tierTask Monthly) emptyWorld))) = [].
Proof.
  apply (@unawaited_log_write_reaches_the_process_handler
           logRejecting Monthly emptyWorld
           {| size := 2048; destination := "backups/dump.gz" |}
           {| message := "log storage unavailable" |});
    reflexivity.
Defined.

(** X9. The promise of a backup callback rejects in one case only: the
    write of the failure record, made in the [catch] block, throws.  The
    run then has printed its 'failed' line last, has logged nothing, and
    the error it rejects with is the one that write threw. *)
Theorem backup_run_rejects_only_when_the_failure_record_cannot_be_written
    (svc : Services) (tier : Tier) (w : World) (thrown : Error)
    (Hrejects : fst (exec svc (tierTask tier) w) = Thrown thrown) :
  exists error before,
    storageWrite svc (failedInfo tier error) (snd (exec svc (tierTask tier) w))
    = WriteThrows thrown
    /\ console (snd (exec svc (tierTask tier) w)) =
       before ++ [{| stream := Stderr; line := failedLine tier error |}]
    /\ backupLog (snd (exec svc (tierTask tier) w)) = backupLog w
    /\ floating (snd (exec svc (tierTask tier) w)) = floating w.
Proof.
  revert Hrejects. rewrite exec_tierTask; cbv zeta.
  destruct (createDatabaseBackup svc _) as [r|e].
  - destruct (storageWrite svc (successInfo tier r) _) as [|e1|e1] eqn:Hw1.
    + unfold append; rewrite Hw1; discriminate.
    + unfold recover, append.
      destruct (storageWrite svc (failedInfo tier e1) _) as [|e2|e2] eqn:Hw2;
        try discriminate.
      cbn [fst snd]. intro H; injection H as <-.
      exists e1; eexists. split; [exact Hw2|]. cbn. repeat split.
    + unfold append; rewrite Hw1; discriminate.
  - unfold recover, append.
    destruct (storageWrite svc (failedInfo tier e) _) as [|e2|e2] eqn:Hw2;
      try discriminate.
    cbn [fst snd]. intro H; injection H as <-.
    exists e; eexists. split; [exact Hw2|]. cbn. repeat split.
Qed.

Lemma backup_run_rejects_only_when_the_failure_record_cannot_be_written_witness :
  exists error before,
    storageWrite logDown (failedInfo Daily error)
                 (snd (exec logDown (tierTask Daily) emptyWorld))
    = WriteThrows {| message := "log storage unavailable" |}
    /\ console (snd (exec logDown (tierTask Daily) emptyWorld)) =
       before ++ [{| stream := Stderr; line := failedLine Daily error |}]
    /\ backupLog (snd (exec logDown (tierTask Daily) emptyWorld)) = []
    /\ floating (snd (exec logDown (tierTask Daily) emptyWorld)) = [].
Proof.
  apply (@backup_run_rejects_only_when_the_failure_record_cannot_be_written
           logDown Daily emptyWorld {| message := "log storage unavailable" |}).
  reflexivity.
Defined.

(* ------------------------------------------------------------------ *)
(** ** Runs of two triggers in flight together *)

Lemma nth_error_snoc2_first {A} (l : list A) (a b : A) :
  nth_error ((l ++ [a]) ++ [b]) (length l) = Some a.
Proof. induction l as [|y l IH]; cbn; auto. Qed.

Lemma nth_error_snoc2_second {A} (l : list A) (a b : A) :
  nth_error ((l ++ [a]) ++ [b]) (S (length l)) = Some b.
Proof. induction l as [|y l IH]; cbn; auto. Qed.

Lemma remove_nth_snoc2_first {A} (l : list A) (a b : A) :
  remove_nth (length l) ((l ++ [a]) ++ [b]) = l ++ [b].
Proof. induction l as [|y l IH]; cbn; [reflexivity | rewrite IH; reflexivity]. Qed.

Lemma remove_nth_snoc2_second {A} (l : list A) (a b : A) :
  remove_nth (S (length l)) ((l ++ [a]) ++ [b]) = l ++ [a].
Proof.
  induction l as [|y l IH]; [reflexivity|].
  change (y :: remove_nth (S (length l)) ((l ++ [a]) ++ [b])
          = y :: l ++ [a]).
  rewrite IH; reflexivity.
Qed.

(** A backup callback waits for its export; whichever way the export
    settles, with a working log storage the rest of the callback prints
    one line, logs one record and ends fulfilled. *)
Lemma advance_tierTask_settled (svc : Services) (tier : Tier) (w : World) :
  exists next,
    advance svc (tierTask tier) w =
    (AwaitingBackup next, print Stdout (startLine tier) w)
    /\ forall o w',
         (forall entry w'', storageWrite svc entry w'' = WriteOk) ->
         advance svc (next o) w' =
         (Settled (Returned tt),
          with_backupLog
            (backupLog w' ++ [stamped w' (outcomeInfo tier o)])
            (match o with
             | Returned _ => print Stdout (completedLine tier) w'
             | Thrown e => print Stderr (failedLine tier e) w'
             end)).
Proof.
  destruct tier; eexists; (split; [reflexivity|]);
    intros [r|e] w' Hstorage; cbn; unfold append; rewrite Hstorage;
    reflexivity.
Qed.

(** One trigger fires in a process: its run is the newest in flight. *)
Lemma tick_parks (svc : Services) (s : Node) (job : nat) (tier : Tier) :
  option_map sched_callback (nth_error (registry (world s)) job)
  = Some (tierTask tier) ->
  exists next,
    step svc (Tick job) s =
    {| world := print Stdout (startLine tier) (world s);
       running := running s ++ [{| run_job := job;
                                   run_paused := AwaitingBackup next |}];
       rejected := rejected s |}
    /\ forall o w',
         (forall entry w'', storageWrite svc entry w'' = WriteOk) ->
         advance svc (next o) w' =
         (Settled (Returned tt),
          with_backupLog
            (backupLog w' ++ [stamped w' (outcomeInfo tier o)])
            (match o with
             | Returned _ => print Stdout (completedLine tier) w'
             | Thrown e => print Stderr (failedLine tier e) w'
             end)).
Proof.
  intro Hjob.
  destruct (advance_tierTask_settled svc tier (world s)) as (next & Hadv & Hnext).
  exists next; split; [|exact Hnext].
  unfold step.
  destruct (nth_error (registry (world s)) job) as [sch|]; [|discriminate].
  cbn in Hjob. injection Hjob as Hcb. rewrite Hcb, Hadv. reflexivity.
Qed.

(** The export of the [n]-th run in flight settles and the rest of the
    callback runs to its end fulfilled: the run leaves the list. *)
Lemma settle_nth (svc : Services) (w : World) (runs : list Run)
    (rej : list Error) (n job : nat)
    (next : Outcome BackupResult -> Task) (o : Outcome BackupResult)
    (w' : World) :
  nth_error runs n
  = Some {| run_job := job; run_paused := AwaitingBackup next |} ->
  advance svc (next o) w = (Settled (Returned tt), w') ->
  step svc (BackupSettles n o)
       {| world := w; running := runs; rejected := rej |} =
  {| world := w'; running := remove_nth n runs; rejected := rej |}.
Proof.
  intros Hnth Hadv. unfold step. cbn [running world rejected].
  rewrite Hnth, Hadv. reflexivity.
Qed.

(** X10. Two backup triggers fire one after the other and both exports
    are in flight together.  With a working log storage each run logs
    the record of its own tier and of its own export's outcome, the
    records stand in the log in the order in which the exports settle,
    and afterwards the runs in flight and the rejected promises are
    what they were before the two triggers fired. *)
Theorem runs_in_flight_together_log_in_settlement_order
    (svc : Services) (s : Node) (i j : nat) (ti tj : Tier)
    (oi oj : Outcome BackupResult)
    (Hi : option_map sched_callback (nth_error (registry (world s)) i)
          = Some (tierTask ti))
    (Hj : option_map sched_callback (nth_error (registry (world s)) j)
          = Some (tierTask tj))
    (Hstorage : forall entry w', storageWrite svc entry w' = WriteOk) :
  let n := length (running s) in
  let first_first :=
    steps svc [Tick i; Tick j; BackupSettles n oi; BackupSettles n oj] s in
  let second_first :=
    steps svc [Tick i; Tick j; BackupSettles (S n) oj; BackupSettles n oi] s in
  backupLog (world first_first) =
    backupLog (world s) ++ [stamped (world s) (outcomeInfo ti oi);
                            stamped (world s) (outcomeInfo tj oj)]
  /\ backupLog (world second_first) =
    backupLog (world s) ++ [stamped (world s) (outcomeInfo tj oj);
                            stamped (world s) (outcomeInfo ti oi)]
  /\ running first_first = running s /\ running second_first = running s
  /\ rejected first_first = rejected s /\ rejected second_first = rejected s.
Proof.
  cbv zeta.
  destruct (tick_parks svc s i ti Hi) as (ni & Hs1 & Hni).
  set (s1 := step svc (Tick i) s) in *.
  assert (Hj1 : option_map sched_callback (nth_error (registry (world s1)) j)
                = Some (tierTask tj)).
  { rewrite Hs1. exact Hj. }
  destruct (tick_parks svc s1 j tj Hj1) as (nj & Hs2 & Hnj).
  assert (Hstart : steps svc [Tick i; Tick j] s =
                   {| world := print Stdout (startLine tj)
                                 (print Stdout (startLine ti) (world s));
                      running := (running s
                                  ++ [{| run_job := i;
                                         run_paused := AwaitingBackup ni |}])
                                 ++ [{| run_job := j;
                                        run_paused := AwaitingBackup nj |}];
                      rejected := rejected s |}).
  { unfold steps; cbn [fold_left]. fold s1. rewrite Hs2, Hs1. reflexivity. }
  unfold steps in *; cbn [fold_left] in *. rewrite Hstart.
  rewrite (@settle_nth svc _ _ _ (length (running s)) i ni oi _
             (nth_error_snoc2_first _ _ _) (Hni oi _ Hstorage)).
  rewrite (@settle_nth svc _ _ _ (S (length (running s))) j nj oj _
             (nth_error_snoc2_second _ _ _) (Hnj oj _ Hstorage)).
  rewrite remove_nth_snoc2_first, remove_nth_snoc2_second.
  rewrite (@settle_nth svc _ _ _ (length (running s)) j nj oj _
             (nth_error_snoc _ _) (Hnj oj _ Hstorage)).
  rewrite (@settle_nth svc _ _ _ (length (running s)) i ni oi _
             (nth_error_snoc _ _) (Hni oi _ Hstorage)).
  cbn [running world rejected]. rewrite !remove_nth_snoc.
  destruct oi, oj; cbn; rewrite <- !app_assoc; repeat split.
Qed.

Lemma runs_in_flight_together_log_in_settlement_order_witness :
  let daily := Returned {| size := 10; destination := "d" |} in
  let weekly := Thrown {| message := "disk full" |} in
  let s := booted healthy in
  let first_first :=
    steps healthy [Tick 0; Tick 1; BackupSettles 0 daily;
                   BackupSettles 0 weekly] s in
  let second_first :=
    steps healthy [Tick 0; Tick 1; BackupSettles 1 weekly;
                   BackupSettles 0 daily] s in
  backupLog (world first_first) =
    backupLog (world s) ++ [stamped (world s) (outcomeInfo Daily daily);
                            stamped (world s) (outcomeInfo Weekly weekly)]
  /\ backupLog (world second_first) =
    backupLog (world s) ++ [stamped (world s) (outcomeInfo Weekly weekly);
                            stamped (world s) (outcomeInfo Daily daily)]
  /\ running first_first = running s /\ running second_first = running s
  /\ rejected first_first = rejected s /\ rejected second_first = rejected s.
Proof.
  apply (@runs_in_flight_together_log_in_settlement_order
           healthy (booted healthy) 0 1 Daily Weekly
           (Returned {| size := 10; destination := "d" |})
           (Thrown {| message := "disk full" |}));
    reflexivity.
Defined.

(* ------------------------------------------------------------------ *)
(** ** The object a new budget or goal is built from *)

Lemma getProp_setProp_same {V} (key : string) (value : V) (o : JsObject V) :
  getProp key (setProp key value o) = Some value.
Proof.
  induction o as [|[k v] o IH]; cbn.
  - rewrite String.eqb_refl; reflexivity.
  - destruct (String.eqb k key) eqn:Hk; cbn; rewrite Hk; auto.
Qed.

Lemma getProp_setProp_other {V} (key key' : string) (value : V)
    (o : JsObject V) :
  key <> key' -> getProp key' (setProp key value o) = getProp key' o.
Proof.
  intro Hne. induction o as [|[k v] o IH]; cbn.
  - apply String.eqb_neq in Hne. rewrite Hne; reflexivity.
  - destruct (String.eqb k key) eqn:Hk; cbn.
    + apply String.eqb_eq in Hk; subst k.
      apply String.eqb_neq in Hne. rewrite Hne; reflexivity.
    + destruct (String.eqb k key'); auto.
Qed.

Lemma setProp_keys {V} (key key' : string) (value : V) (o : JsObject V) :
  In key' (map fst (setProp key value o)) <->
  key' = key \/ In key' (map fst o).
Proof.
  induction o as [|[k v] o IH]; cbn.
  - intuition.
  - destruct (String.eqb k key) eqn:Hk; cbn.
    + apply String.eqb_eq in Hk; subst k. intuition.
    + rewrite IH. intuition.
Qed.

Lemma setProp_NoDup {V} (key : string) (value : V) (o : JsObject V) :
  NoDup (map fst o) -> NoDup (map fst (setProp key value o)).
Proof.
  induction o as [|[k v] o IH]; cbn; intro Hnd.
  - constructor; [intros [] | constructor].
  - inversion Hnd as [|? ? Hk Hnd']; subst.
    destruct (String.eqb k key) eqn:Heq; cbn.
    + constructor; assumption.
    + constructor; [|auto].
      rewrite setProp_keys. intros [->|Hin]; [|contradiction].
      rewrite String.eqb_refl in Heq; discriminate.
Qed.

Lemma setProp_fresh {V} (key : string) (value : V) (o : JsObject V) :
  ~ In key (map fst o) -> setProp key value o = o ++ [(key, value)].
Proof.
  induction o as [|[k v] o IH]; cbn; intro Hfresh; [reflexivity|].
  destruct (String.eqb k key) eqn:Hk.
  - apply String.eqb_eq in Hk. tauto.
  - rewrite IH by tauto. reflexivity.
Qed.

(** Spreading an object whose keys are new to the target appends its
    properties in their order. *)
Lemma spread_fresh {V} (source target : JsObject V) :
  NoDup (map fst source) ->
  (forall key, In key (map fst source) -> ~ In key (map fst target)) ->
  spread source target = target ++ source.
Proof.
  unfold spread. revert target.
  induction source as [|[k v] source IH]; intros target Hnd Hfresh; cbn.
  - rewrite app_nil_r; reflexivity.
  - cbn in Hnd. inversion Hnd as [|? ? Hk Hnd']; subst.
    rewrite setProp_fresh by (apply Hfresh; cbn; auto).
    rewrite IH; [rewrite <- app_assoc; reflexivity | assumption |].
    intros key Hin. rewrite map_app, in_app_iff. cbn.
    intros [Ht|[<-|[]]]; [|contradiction].
    revert Ht. apply Hfresh. cbn; auto.
Qed.

(** X11. The object a new budget or goal is built from always names the
    authenticated user as [user], whatever [user] the request body
    carries; every other property of the body is passed on with its
    value, no key occurs twice, and the keys are those of the body
    together with [user]. *)
Theorem new_document_belongs_to_requester {V : Type}
    (body : JsObject V) (userId : V)
    (Hbody : NoDup (map fst body)) :
  getProp "user" (newDocument body userId) = Some userId
  /\ (forall key, key <> "user" ->
        getProp key (newDocument body userId) = getProp key body)
  /\ NoDup (map fst (newDocument body userId))
  /\ (forall key, In key (map fst (newDocument body userId)) <->
                  key = "user" \/ In key (map fst body)).
Proof.
  unfold newDocument.
  rewrite (@spread_fresh V body [] Hbody) by (intros key _ []).
  cbn [app].
  split; [apply getProp_setProp_same|].
  split; [intros key Hne; apply getProp_setProp_other; congruence|].
  split; [apply setProp_NoDup; assumption|].
  intro key. apply setProp_keys.
Qed.

Lemma new_document_belongs_to_requester_witness :
  let body := [("name", 1%Z); ("user", 666%Z); ("amount", 50%Z)] in
  getProp "user" (newDocument body 7%Z) = Some 7%Z
  /\ (forall key, key <> "user" ->
        getProp key (newDocument body 7%Z) = getProp key body)
  /\ NoDup (map fst (newDocument body 7%Z))
  /\ (forall key, In key (map fst (newDocument body 7%Z)) <->
                  key = "user" \/ In key (map fst body)).
Proof.
  apply (@new_document_belongs_to_requester Z
           [("name", 1%Z); ("user", 666%Z); ("amount", 50%Z)] 7%Z).
  repeat constructor; cbn; intuition discriminate.
Defined.

(* ------------------------------------------------------------------ *)
(** ** The monthly limit status *)

Module MonthlyLimitFacts.
Import PrimFloat SpecFloat FloatOps FloatAxioms.
Import MonthlyLimit.
Local Open Scope float_scope.

Lemma SFcompare_antisym (f g : spec_float) :
  SFcompare f g = Some Lt -> SFcompare g f = Some Gt.
Proof.
  destruct f as [s|s| |s m e], g as [s'|s'| |s' m' e']; cbn;
    try destruct s; try destruct s'; cbn; try discriminate; try reflexivity.
  - rewrite (Z.compare_antisym e e').
    destruct (e ?= e')%Z; cbn; try discriminate; try reflexivity.
    change (Pos.compare_cont Eq m' m) with (Pos.compare m' m).
    change (Pos.compare_cont Eq m m') with (Pos.compare m m').
    rewrite (Pos.compare_antisym m m').
    destruct (Pos.compare m m'); cbn; try discriminate; reflexivity.
  - rewrite (Z.compare_antisym e e').
    destruct (e ?= e')%Z; cbn; try discriminate; try reflexivity.
    change (Pos.compare_cont Eq m' m) with (Pos.compare m' m).
    change (Pos.compare_cont Eq m m') with (Pos.compare m m').
    rewrite (Pos.compare_antisym m m').
    destruct (Pos.compare m m'); cbn; try discriminate; reflexivity.
Qed.

Lemma ltb_antisym (x y : float) : (x <? y) = true -> (y <? x) = false.
Proof.
  rewrite !ltb_spec. unfold SFltb.
  destruct (SFcompare (Prim2SF x) (Prim2SF y)) as [[| |]|] eqn:H;
    try discriminate.
  intros _. rewrite (SFcompare_antisym _ _ H). reflexivity.
Qed.

Lemma is_nan_spec (x : float) : is_nan x = true -> Prim2SF x = S754_nan.
Proof.
  unfold is_nan. rewrite eqb_spec. unfold SFeqb.
  destruct (Prim2SF x) as [s|s| |s m e]; cbn;
    try discriminate; try reflexivity;
    destruct s; cbn; try discriminate;
    rewrite Z.compare_refl, Pos.compare_cont_refl; discriminate.
Qed.

Lemma ltb_nan_l (x y : float) : is_nan x = true -> (x <? y) = false.
Proof. intro H. rewrite ltb_spec, (is_nan_spec _ H). reflexivity. Qed.

Lemma ltb_nan_r (x y : float) : is_nan y = true -> (x <? y) = false.
Proof.
  intro H. rewrite ltb_spec, (is_nan_spec _ H). unfold SFltb.
  destruct (Prim2SF x); reflexivity.
Qed.

(** [Math.max(0, x)] is never below zero and [Math.min(100, x)] never
    above a hundred, NaN included. *)
Lemma max0_not_negative (x : float) : (max0 x <? 0) = false.
Proof.
  unfold max0. destruct (is_nan x) eqn:Hnan; [apply ltb_nan_l; assumption|].
  destruct (0 <? x) eqn:Hpos; [apply ltb_antisym; assumption | reflexivity].
Qed.

Lemma min100_not_above (x : float) : (100 <? min100 x) = false.
Proof.
  unfold min100. destruct (is_nan x) eqn:Hnan; [apply ltb_nan_r; assumption|].
  destruct (x <? 100) eqn:Hlt; [apply ltb_antisym; assumption | reflexivity].
Qed.

(** X12. The status [GET /monthly-limit] answers with, for every limit
    field and every aggregation result in IEEE double arithmetic: the
    remaining amount reported is never below zero and the percentage
    reported never above 100; a budget is never reported both exceeded
    and near its limit; and a user whose limit is missing, zero or NaN
    gets limit 0, percentage 0, not exceeded and not near the limit,
    whatever was spent. *)
Theorem monthly_limit_status_in_range
    (monthlyBudgetLimit : option float) (monthlyExpenses : list float) :
  let st := monthlyLimitStatus monthlyBudgetLimit monthlyExpenses in
  (remaining st <? 0) = false
  /\ (100 <? percentage st) = false
  /\ isExceeded st && isNearLimit st = false
  /\ ((monthlyBudgetLimit = None
       \/ exists l, monthlyBudgetLimit = Some l /\ truthy l = false) ->
      limit st = 0 /\ percentage st = 0
      /\ isExceeded st = false /\ isNearLimit st = false).
Proof.
  cbv zeta. unfold monthlyLimitStatus;
    cbn [limit remaining percentage isExceeded isNearLimit].
  split; [apply max0_not_negative|].
  split; [apply min100_not_above|].
  split.
  - match goal with
    | |- andb ?a (andb ?b (negb ?a)) = false =>
        destruct a; [rewrite andb_false_r|]; reflexivity
    end.
  - intros [->|(l & -> & Hl)]; [|rewrite Hl];
      rewrite andb_false_r; repeat split.
Qed.

End MonthlyLimitFacts.
